(** * A shallow embedding of gVisor's netstack [Stack] (pkg/tcpip/stack/stack.go)

    The development covers the route table ([AddRoute], [SetRouteTable],
    [RemoveRoutes], [GetRouteTable]), the NIC map ([CreateNICWithOptions],
    [RemoveNIC], [HasNIC], [SetNICStack]), raw and packet endpoint
    construction, [CheckLocalAddress] and the first steps of [FindRoute]. *)

From stdpp Require Import base gmap list strings.
From Stdlib Require Import Sorting.Sorted.

Open Scope Z_scope.

(* ------------------------------------------------------------------ *)
(** ** Basic tcpip types *)

(** [tcpip.NICID] (an int32 in Go). *)
Abbreviation NICID := Z.

(** [tcpip.NetworkProtocolNumber]. *)
Abbreviation NetworkProtocolNumber := Z.

(** [tcpip.TransportProtocolNumber]. *)
Abbreviation TransportProtocolNumber := Z.

(** [tcpip.Address]: the address bytes; the zero value [tcpip.Address{}]
    is the empty list and [BitLen] is eight times the length. *)
Abbreviation Address := (list Z).

Definition BitLen (a : list Z) : Z := 8 * Z.of_nat (length a).

(** [header.IPv4ProtocolNumber] and [header.IPv6ProtocolNumber]. *)
Definition IPv4ProtocolNumber : Z := 2048.   (* 0x0800 *)
Definition IPv6ProtocolNumber : Z := 34525.  (* 0x86dd *)

(** The errors of package tcpip used by the functions below. *)
Inductive Error :=
| ErrUnknownProtocol
| ErrUnknownNICID
| ErrInvalidNICID
| ErrDuplicateNICID
| ErrNotPermitted
| ErrBadLocalAddress
| ErrNetworkUnreachable
| ErrHostUnreachable
| ErrNoSuchFile
| ErrNotSupported
| ErrOther (code : Z).

#[global] Instance Error_eq_dec : EqDecision Error.
Proof. solve_decision. Defined.

(* ------------------------------------------------------------------ *)
(** ** Subnets and routes *)

(** [tcpip.Subnet]: an address and a mask. *)
Record Subnet := mkSubnet {
  subnetAddress : list Z;
  subnetMask : list Z;
}.

#[global] Instance Subnet_eq_dec : EqDecision Subnet.
Proof. solve_decision. Defined.

(** Number of leading one bits of a byte. *)
Fixpoint leadingOnes8 (fuel : nat) (b : Z) : Z :=
  match fuel with
  | O => 0
  | S f => if Z.testbit b 7 then 1 + leadingOnes8 f (Z.land (Z.shiftl b 1) 255) else 0
  end.

(** Modelled from the spec: [Subnet.Prefix] (package tcpip, not in this
    tree) is the number of leading one bits of the mask, i.e. the
    destination prefix length: bytes are scanned until the first byte
    that is not [0xff]. *)
Fixpoint maskPrefix (m : list Z) : Z :=
  match m with
  | [] => 0
  | b :: m' => if decide (b = 255) then 8 + maskPrefix m' else leadingOnes8 8 b
  end.

Definition Prefix (s : Subnet) : Z := maskPrefix (subnetMask s).

(** [tcpip.Route]: destination, gateway, outgoing NIC, source hint, MTU. *)
Record Route := mkRoute {
  Destination : Subnet;
  Gateway : list Z;
  NIC : Z;
  SourceHint : list Z;
  MTU : Z;
}.

#[global] Instance Route_eq_dec : EqDecision Route.
Proof. solve_decision. Defined.

Definition routePrefix (r : Route) : Z := Prefix (Destination r).

(* ------------------------------------------------------------------ *)
(** ** The route table ([s.routeTable], a [tcpip.RouteList]) *)

Module RouteTable.

(** [addRouteLocked]: walk from the front and insert before the first
    entry whose prefix is strictly shorter; otherwise push at the back. *)
Fixpoint addRouteLocked (route : Route) (t : list Route) : list Route :=
  match t with
  | [] => [route]
  | n :: t' =>
      if decide (routePrefix n < routePrefix route)
      then route :: n :: t'
      else n :: addRouteLocked route t'
  end.

Definition AddRoute (route : Route) (t : list Route) : list Route :=
  addRouteLocked route t.

(** [SetRouteTable]: [Reset] the list, then [addRouteLocked] every entry
    of [table] in order. *)
Definition SetRouteTable (table : list Route) (_old : list Route) : list Route :=
  fold_left (fun acc r => addRouteLocked r acc) table [].

(** [GetRouteTable] copies the list front to back. *)
Definition GetRouteTable (t : list Route) : list Route := t.

(** [removeRoutesLocked]: one pass over the list, unlinking every entry
    [match] accepts and counting them. Returns the new table and the
    count. *)
Fixpoint removeRoutesLocked (match_ : Route -> bool) (t : list Route)
    : list Route * nat :=
  match t with
  | [] => ([], 0%nat)
  | route :: t' =>
      let '(rest, count) := removeRoutesLocked match_ t' in
      if match_ route then (rest, S count) else (route :: rest, count)
  end.

Definition RemoveRoutes (match_ : Route -> bool) (t : list Route)
    : list Route * nat :=
  removeRoutesLocked match_ t.

(** The operations of the claim about sequences of updates. *)
Inductive RouteOp :=
| OpAddRoute (r : Route)
| OpSetRouteTable (table : list Route).

Definition stepOp (t : list Route) (op : RouteOp) : list Route :=
  match op with
  | OpAddRoute r => AddRoute r t
  | OpSetRouteTable table => SetRouteTable table t
  end.

Definition runOps (t : list Route) (ops : list RouteOp) : list Route :=
  fold_left stepOp ops t.

(** The route tables a stack can hold: [NewStack] starts from the empty
    table, and the table changes only through [AddRoute], [SetRouteTable]
    and [RemoveRoutes]; [ReplaceRoute] and the purge of [SetNICStack]
    change it through [removeRoutesLocked] and [addRouteLocked], and the
    in-place purge of [RemoveNIC] keeps exactly the entries
    [removeRoutesLocked] keeps, so these steps cover them. *)
Inductive reachable_table : list Route -> Prop :=
| reach_empty : reachable_table []
| reach_add (r : Route) (t : list Route) :
    reachable_table t -> reachable_table (AddRoute r t)
| reach_set (table t : list Route) :
    reachable_table t -> reachable_table (SetRouteTable table t)
| reach_remove (p : Route -> bool) (t : list Route) :
    reachable_table t -> reachable_table (fst (RemoveRoutes p t)).

(** The table order: longest prefix first. *)
Definition routes_sorted (t : list Route) : Prop :=
  Sorted (fun a b => routePrefix b <= routePrefix a) t.

End RouteTable.

(* ------------------------------------------------------------------ *)
(** ** Address classification (package header) *)

(** Modelled from the spec: the classification helpers of package header
    (not in this tree) that [FindRoute] applies to [remoteAddr]; the
    spec names link-local (IPv6 unicast and multicast), local broadcast
    (IPv4 255.255.255.255), multicast and loopback. *)
Definition IPv4Broadcast : list Z := [255; 255; 255; 255].

Definition IPv6Loopback : list Z := [0;0;0;0; 0;0;0;0; 0;0;0;0; 0;0;0;1].

Definition firstByte (a : list Z) : Z := default 0 (head a).
Definition secondByte (a : list Z) : Z := default 0 (head (tail a)).

Definition IsV4MulticastAddress (a : list Z) : bool :=
  bool_decide (BitLen a = 32) && bool_decide (Z.land (firstByte a) 240 = 224).

Definition IsV6MulticastAddress (a : list Z) : bool :=
  bool_decide (BitLen a = 128) && bool_decide (firstByte a = 255).

Definition IsV6LinkLocalUnicastAddress (a : list Z) : bool :=
  bool_decide (BitLen a = 128) && bool_decide (firstByte a = 254)
  && bool_decide (Z.land (secondByte a) 192 = 128).

Definition IsV6LinkLocalMulticastAddress (a : list Z) : bool :=
  IsV6MulticastAddress a && bool_decide (Z.land (secondByte a) 15 = 2).

Definition IsV4LoopbackAddress (a : list Z) : bool :=
  bool_decide (BitLen a = 32) && bool_decide (firstByte a = 127).

Definition IsV6LoopbackAddress (a : list Z) : bool :=
  bool_decide (a = IPv6Loopback).

(** The four classes [FindRoute] computes for [remoteAddr]. *)
Definition isLinkLocalAddr (a : list Z) : bool :=
  IsV6LinkLocalUnicastAddress a || IsV6LinkLocalMulticastAddress a.
Definition isLocalBroadcastAddr (a : list Z) : bool := bool_decide (a = IPv4Broadcast).
Definition isMulticastAddr (a : list Z) : bool := IsV4MulticastAddress a || IsV6MulticastAddress a.
Definition isLoopbackAddr (a : list Z) : bool := IsV4LoopbackAddress a || IsV6LoopbackAddress a.

(** [needRoute] of [FindRoute]. *)
Definition needRoute (a : list Z) : bool :=
  negb (isLocalBroadcastAddr a || isMulticastAddr a || isLinkLocalAddr a || isLoopbackAddr a).

(* ------------------------------------------------------------------ *)
(** ** Results, NICs, routes handed out by [FindRoute], endpoints *)

(** A Go [(T, tcpip.Error)] pair where exactly one side is meaningful. *)
Inductive res (A : Type) :=
| Ok (a : A)
| Fail (e : Error).
Arguments Ok {A} a.
Arguments Fail {A} e.

(** A call either returns or panics. *)
Inductive outcome (A : Type) :=
| Returned (a : A)
| Panicked.
Arguments Returned {A} a.
Arguments Panicked {A}.

(** [stack.NICOptions] (the fields used here). *)
Record NICOptions := mkNICOptions {
  Name : string;
  Disabled : bool;
}.

Definition defaultNICOptions : NICOptions := mkNICOptions "" false.

(** The state of a [*nic] the stack functions read: its id, name,
    enabled flag, assigned (protocol, address) pairs, the coordinator it
    is attached to ([nic.Primary], by NIC id) and its link endpoint (an
    opaque handle). *)
Record nic := mkNic {
  nic_id : Z;
  nic_name : string;
  nic_enabled : bool;
  nic_addrs : list (Z * list Z);
  nic_primary : option Z;
  nic_linkEP : Z;
}.

(** The [*stack.Route] values [FindRoute] returns (built by [makeRoute]
    or [makeLocalRoute]). *)
Record RouteInfo := mkRouteInfo {
  ri_netProto : Z;
  ri_localAddress : list Z;
  ri_remoteAddress : list Z;
  ri_gateway : list Z;
  ri_outgoingNIC : nic;
  ri_localAddressNIC : nic;
  ri_addressEndpoint : list Z;
  ri_handleLocal : bool;
  ri_multicastLoop : bool;
  ri_mtu : Z;
  ri_isLocal : bool;
}.

(** Transport endpoints are opaque handles. *)
Definition Endpoint : Type := Z.

(** The [RawFactory] interface. *)
Record RawFactory := mkRawFactory {
  NewUnassociatedEndpoint : Z -> Z -> res Endpoint;
  rfNewPacketEndpoint : bool -> Z -> res Endpoint;
}.

(** A registered transport protocol ([transportProtocolState.proto]). *)
Record TransportProtocol := mkTransportProtocol {
  tpNewEndpoint : Z -> res Endpoint;
  tpNewRawEndpoint : Z -> res Endpoint;
}.

(** [stack.Stack], the fields the modelled functions use. A nil
    [rawFactory] is [None]. *)
Record Stack := mkStack {
  transportProtocols : gmap Z TransportProtocol;
  networkProtocols : gset Z;
  rawFactory : option RawFactory;
  routeTable : list Route;
  nics : gmap Z nic;
  defaultForwardingEnabled : list Z;
  nicIDGen : Z;
  handleLocal : bool;
}.

Definition set_nics (s : Stack) (m : gmap Z nic) : Stack :=
  mkStack (transportProtocols s) (networkProtocols s) (rawFactory s)
    (routeTable s) m (defaultForwardingEnabled s) (nicIDGen s) (handleLocal s).

Definition set_routeTable (s : Stack) (t : list Route) : Stack :=
  mkStack (transportProtocols s) (networkProtocols s) (rawFactory s)
    t (nics s) (defaultForwardingEnabled s) (nicIDGen s) (handleLocal s).

Definition set_nicIDGen (s : Stack) (g : Z) : Stack :=
  mkStack (transportProtocols s) (networkProtocols s) (rawFactory s)
    (routeTable s) (nics s) (defaultForwardingEnabled s) g (handleLocal s).

(** The NICs in Go map iteration order. Go randomises that order; the
    model fixes one (the gmap's), and every statement below about an
    iteration holds whatever the order or does not depend on it. *)
Definition nicList (s : Stack) : list nic := (map snd (map_to_list (nics s))).

(** Side effects on link endpoints and coordinators, in call order. *)
Inductive Event :=
| EvDelNIC (coordinator nicID : Z)
| EvNicRemove (nicID : Z) (closeLinkEndpoint : bool)
| EvDeferred (nicID : Z)
| EvSetOnCloseAction (linkEP nicID : Z)
| EvEnable (nicID : Z).

(** Behaviour of code outside stack.go that the stack functions call:
    the methods of [*nic] (nic.go), [IsOutboundBroadcast] (route.go),
    the coordinator's [DelNIC], and the route-table search of
    [FindRoute] (its steps 5 to 8, which no statement below depends on).
    Every theorem is stated for an arbitrary [NicOps]. *)
Record NicOps := mkNicOps {
  primaryEndpoint : nic -> Z -> list Z -> list Z -> option (list Z);
  findEndpoint : nic -> Z -> list Z -> option (list Z);
  getAddressOrCreateTempInner : nic -> Z -> list Z -> option (list Z);
  hasAddress : nic -> Z -> list Z -> bool;
  nicCheckLocalAddress : nic -> Z -> list Z -> bool;
  isOutboundBroadcast : RouteInfo -> bool;
  DelNIC : Z -> nic -> option Error;
  nicRemove : nic -> bool -> bool * option Error;
  newNIC : Z -> Z -> NICOptions -> nic;
  setForwarding : nic -> Z -> bool -> (nic + Error)%type;
  nicEnable : nic -> nic * option Error;
  findRouteInTable : Stack -> Z -> list Z -> list Z -> Z -> bool -> bool -> res RouteInfo;
}.

(* ------------------------------------------------------------------ *)
(** ** Stack operations *)

(** The first element a [for ... range] loop stops at. *)
Fixpoint firstWith {A : Type} (p : A -> bool) (l : list A) : option A :=
  match l with
  | [] => None
  | x :: l' => if p x then Some x else firstWith p l'
  end.

Module StackOps.
Import RouteTable.

Section WithOps.
Variable ops : NicOps.

(** [CheckNetworkProtocol]. *)
Definition CheckNetworkProtocol (s : Stack) (protocol : Z) : bool :=
  bool_decide (protocol ∈ networkProtocols s).

(** [HasNIC]. *)
Definition HasNIC (s : Stack) (id : Z) : bool :=
  bool_decide (is_Some (nics s !! id)).

(** [getAddressEP]. *)
Definition getAddressEP (n : nic) (localAddr remoteAddr srcHint : list Z)
    (netProto : Z) : option (list Z) :=
  if bool_decide (BitLen localAddr = 0)
  then primaryEndpoint ops n netProto remoteAddr srcHint
  else findEndpoint ops n netProto localAddr.

(** Modelled from the spec: [makeRoute] (route.go, not in this tree)
    records the protocol, the addresses, the outgoing and local-address
    NICs, the address endpoint, the gateway and the MTU it is given. *)
Definition makeRoute (netProto : Z) (gateway localAddr remoteAddr : list Z)
    (outgoingNIC localAddressNIC : nic) (addressEndpoint : list Z)
    (handleLocal multicastLoop : bool) (mtu : Z) : RouteInfo :=
  mkRouteInfo netProto localAddr remoteAddr gateway outgoingNIC
    localAddressNIC addressEndpoint handleLocal multicastLoop mtu false.

(** Modelled from the spec: [makeLocalRoute] (route.go, not in this tree)
    builds a route whose packets never leave the stack: no gateway, no
    MTU of its own. *)
Definition makeLocalRoute (netProto : Z) (localAddr remoteAddr : list Z)
    (outgoingNIC localAddressNIC : nic) (localAddressEndpoint : list Z)
    : RouteInfo :=
  mkRouteInfo netProto localAddr remoteAddr [] outgoingNIC
    localAddressNIC localAddressEndpoint true false 0 true.

(** [findLocalRouteFromNICRLocked]. *)
Definition findLocalRouteFromNICRLocked (s : Stack) (localAddressNIC : nic)
    (localAddr remoteAddr : list Z) (netProto : Z) : option RouteInfo :=
  match getAddressOrCreateTempInner ops localAddressNIC netProto localAddr with
  | None => None
  | Some localAddressEndpoint =>
      let outgoingNIC :=
        if hasAddress ops localAddressNIC netProto remoteAddr
        then Some localAddressNIC
        else firstWith (fun n => hasAddress ops n netProto remoteAddr) (nicList s) in
      match outgoingNIC with
      | None => None
      | Some out =>
          let r := makeLocalRoute netProto localAddr remoteAddr out
                     localAddressNIC localAddressEndpoint in
          if isOutboundBroadcast ops r then None else Some r
      end
  end.

(** [findLocalRouteRLocked]. *)
Definition findLocalRouteRLocked (s : Stack) (localAddressNICID : Z)
    (localAddr remoteAddr : list Z) (netProto : Z) : option RouteInfo :=
  let localAddr := if bool_decide (BitLen localAddr = 0) then remoteAddr else localAddr in
  if bool_decide (localAddressNICID = 0) then
    foldr (fun n acc =>
             match findLocalRouteFromNICRLocked s n localAddr remoteAddr netProto with
             | Some r => Some r
             | None => acc
             end) None (nicList s)
  else
    match nics s !! localAddressNICID with
    | Some n => findLocalRouteFromNICRLocked s n localAddr remoteAddr netProto
    | None => None
    end.

(** The [handleLocal] step of [FindRoute]: a local route is looked for
    when the stack handles local traffic and the remote address is
    neither multicast nor the local broadcast address. *)
Definition localRouteAttempt (s : Stack) (id : Z) (localAddr remoteAddr : list Z)
    (netProto : Z) : option RouteInfo :=
  if handleLocal s && negb (isMulticastAddr remoteAddr) && negb (isLocalBroadcastAddr remoteAddr)
  then findLocalRouteRLocked s id localAddr remoteAddr netProto
  else None.

(** [FindRoute], steps 1 to 4 as written; the route-table search that
    follows is [findRouteInTable]. *)
Definition FindRoute (s : Stack) (id : Z) (localAddr remoteAddr : list Z)
    (netProto : Z) (multicastLoop : bool) : res RouteInfo :=
  if negb (CheckNetworkProtocol s netProto) then Fail ErrUnknownProtocol else
  let isLinkLocal := isLinkLocalAddr remoteAddr in
  let isLocalBroadcast := isLocalBroadcastAddr remoteAddr in
  let isMulticast := isMulticastAddr remoteAddr in
  let isLoopback := isLoopbackAddr remoteAddr in
  let needRoute := negb (isLocalBroadcast || isMulticast || isLinkLocal || isLoopback) in
  match localRouteAttempt s id localAddr remoteAddr netProto with
  | Some r => Ok r
  | None =>
      if bool_decide (id <> 0) && negb needRoute then
        match (match nics s !! id with
               | Some n =>
                   if nic_enabled n then
                     match getAddressEP n localAddr remoteAddr [] netProto with
                     | Some addressEndpoint =>
                         Some (makeRoute netProto [] localAddr remoteAddr n n
                                 addressEndpoint (handleLocal s) multicastLoop 0)
                     | None => None
                     end
                   else None
               | None => None
               end) with
        | Some r => Ok r
        | None => if isLoopback then Fail ErrBadLocalAddress else Fail ErrNetworkUnreachable
        end
      else findRouteInTable ops s id localAddr remoteAddr netProto multicastLoop needRoute
  end.

(** [CheckLocalAddress]. *)
Definition CheckLocalAddress (s : Stack) (nicID protocol : Z) (addr : list Z) : Z :=
  if bool_decide (nicID <> 0) then
    match nics s !! nicID with
    | None => 0
    | Some n =>
        if bool_decide (protocol = IPv4ProtocolNumber) then nic_id n
        else if nicCheckLocalAddress ops n protocol addr then nic_id n
        else 0
    end
  else
    match firstWith (fun n => nicCheckLocalAddress ops n protocol addr) (nicList s) with
    | Some n => nic_id n
    | None => 0
    end.

(** [removeNICLocked]: returns the new stack, the effects performed,
    whether a deferred action was returned, and the error. *)
Definition removeNICLocked (s : Stack) (id : Z)
    : Stack * list Event * bool * option Error :=
  match nics s !! id with
  | None => (s, [], false, Some ErrUnknownNICID)
  | Some n =>
      let s1 := set_nics s (delete id (nics s)) in
      let purge (ev : list Event) :=
        (* Remove routes in-place. *)
        let s2 := set_routeTable s1
                    (List.filter (fun r => negb (bool_decide (NIC r = id))) (routeTable s1)) in
        let '(deferAct, err) := nicRemove ops n true in
        (s2, ev ++ [EvNicRemove id true], deferAct, err) in
      match nic_primary n with
      | Some m =>
          match DelNIC ops m n with
          | Some err => (s1, [EvDelNIC m id], false, Some err)
          | None => purge [EvDelNIC m id]
          end
      | None => purge []
      end
  end.

(** [RemoveNIC]: [removeNICLocked] under [s.mu], then the deferred
    action. *)
Definition RemoveNIC (s : Stack) (id : Z) : Stack * list Event * option Error :=
  let '(s', ev, deferAct, err) := removeNICLocked s id in
  (s', ev ++ (if deferAct then [EvDeferred id] else []), err).

(** The [for proto := range s.defaultForwardingEnabled] loop of
    [CreateNICWithOptions]: [None] is the panic on a failed
    [setForwarding]. *)
Fixpoint applyDefaultForwarding (n : nic) (protos : list Z) : option nic :=
  match protos with
  | [] => Some n
  | proto :: protos' =>
      match setForwarding ops n proto true with
      | inl n' => applyDefaultForwarding n' protos'
      | inr _ => None
      end
  end.

(** [CreateNICWithOptions]. *)
Definition CreateNICWithOptions (s : Stack) (id : Z) (ep : Z) (opts : NICOptions)
    : outcome (Stack * list Event * option Error) :=
  if bool_decide (id = 0) then Returned (s, [], Some ErrInvalidNICID) else
  (* Make sure id is unique. *)
  if bool_decide (is_Some (nics s !! id)) then Returned (s, [], Some ErrDuplicateNICID) else
  (* Make sure name is unique, unless unnamed. *)
  if bool_decide (Name opts <> "")%string
     && existsb (fun n => bool_decide (nic_name n = Name opts)) (nicList s)
  then Returned (s, [], Some ErrDuplicateNICID) else
  match applyDefaultForwarding (newNIC ops id ep opts) (defaultForwardingEnabled s) with
  | None => Panicked
  | Some n =>
      let ev := [EvSetOnCloseAction ep id] in
      if negb (Disabled opts) then
        let '(n', err) := nicEnable ops n in
        Returned (set_nics s (<[id := n']> (nics s)), ev ++ [EvEnable id], err)
      else Returned (set_nics s (<[id := n]> (nics s)), ev, None)
  end.

(** [NewEndpoint]. *)
Definition NewEndpoint (s : Stack) (transport network : Z) : res Endpoint :=
  match transportProtocols s !! transport with
  | None => Fail ErrUnknownProtocol
  | Some t => tpNewEndpoint t network
  end.

(** [NewRawEndpoint]. *)
Definition NewRawEndpoint (s : Stack) (transport network : Z) (associated : bool)
    : res Endpoint :=
  match rawFactory s with
  | None => Fail ErrNotPermitted
  | Some f =>
      if negb associated then NewUnassociatedEndpoint f network transport else
      match transportProtocols s !! transport with
      | None => Fail ErrUnknownProtocol
      | Some t => tpNewRawEndpoint t network
      end
  end.

(** [NewPacketEndpoint]. *)
Definition NewPacketEndpoint (s : Stack) (cooked : bool) (netProto : Z) : res Endpoint :=
  match rawFactory s with
  | None => Fail ErrNotPermitted
  | Some f => rfNewPacketEndpoint f cooked netProto
  end.

(** [int32] wrap-around. *)
Definition wrap32 (z : Z) : Z := (z + 2 ^ 31) mod 2 ^ 32 - 2 ^ 31.

(** [NextNICID]: [nicIDGen.Add(1)], panicking on overflow. *)
Definition NextNICID (s : Stack) : outcome (Stack * Z) :=
  let next := wrap32 (nicIDGen s + 1) in
  if bool_decide (next < 0) then Panicked else Returned (set_nicIDGen s next, next).

(** [SetNICStack] works on two [*Stack] pointers; the heap of stacks is
    a map from pointers to stacks, so that [s == peer] is pointer
    equality and an update through one pointer is seen through the
    other. *)
Definition SetNICStack (heap : gmap Z Stack) (sp : Z) (id : Z) (peer : Z)
    : outcome (gmap Z Stack * list Event * (Z * option Error)) :=
  match heap !! sp with
  | None => Panicked
  | Some s =>
      match nics s !! id with
      | None => Returned (heap, [], (0, Some ErrUnknownNICID))
      | Some n =>
          if bool_decide (sp = peer) then Returned (heap, [], (id, None)) else
          let s1 := set_nics s (delete id (nics s)) in
          let s2 := set_routeTable s1
                      (fst (RemoveRoutes (fun r => bool_decide (NIC r = id)) (routeTable s1))) in
          let ne := nic_linkEP n in
          let '(deferAct, err) := nicRemove ops n false in
          let heap1 := <[sp := s2]> heap in
          let ev := [EvNicRemove id false] ++ (if deferAct then [EvDeferred id] else []) in
          match err with
          | Some e => Returned (heap1, ev, (0, Some e))
          | None =>
              match heap1 !! peer with
              | None => Panicked
              | Some p =>
                  match NextNICID p with
                  | Panicked => Panicked
                  | Returned (p1, id') =>
                      match CreateNICWithOptions p1 id' ne (mkNICOptions (nic_name n) false) with
                      | Panicked => Panicked
                      | Returned (p2, ev2, err2) =>
                          Returned (<[peer := p2]> heap1, ev ++ ev2, (id', err2))
                      end
                  end
              end
          end
      end
  end.

End WithOps.
End StackOps.

(* ------------------------------------------------------------------ *)
(** ** A concrete NIC behaviour, for evaluating the functions *)

Module SpecNic.

(** The addresses of protocol [p] assigned to [n], in assignment order. *)
Definition addrsOf (n : nic) (p : Z) : list (list Z) :=
  map snd (List.filter (fun pa => bool_decide (pa.1 = p)) (nic_addrs n)).

(** Modelled from the spec: the methods of [*nic] (nic.go, not in this
    tree) over a NIC's list of assigned addresses: the primary endpoint
    is the first address of the protocol, an address endpoint is found
    when the address is assigned, [hasAddress] and [CheckLocalAddress]
    test assignment, a new NIC is created disabled with no address,
    [enable] sets the enabled flag, [remove] returns no deferred action,
    and a coordinator's [DelNIC] is the given function. The route-table
    search of [FindRoute] reports [HostUnreachable]. *)
Definition specOps (delNIC : Z -> nic -> option Error) : NicOps := {|
  primaryEndpoint := fun n p _ _ => head (addrsOf n p);
  findEndpoint := fun n p a => if bool_decide (a ∈ addrsOf n p) then Some a else None;
  getAddressOrCreateTempInner :=
    fun n p a => if bool_decide (a ∈ addrsOf n p) then Some a else None;
  hasAddress := fun n p a => bool_decide (a ∈ addrsOf n p);
  nicCheckLocalAddress := fun n p a => bool_decide (a ∈ addrsOf n p);
  isOutboundBroadcast := fun r => bool_decide (ri_remoteAddress r = IPv4Broadcast);
  DelNIC := delNIC;
  nicRemove := fun _ _ => (false, None);
  newNIC := fun id ep opts => mkNic id (Name opts) false [] None ep;
  setForwarding := fun n _ _ => inl n;
  nicEnable := fun n => (mkNic (nic_id n) (nic_name n) true (nic_addrs n)
                           (nic_primary n) (nic_linkEP n), None);
  findRouteInTable := fun _ _ _ _ _ _ _ => Fail ErrHostUnreachable;
|}.

(** Coordinators whose [DelNIC] always succeeds. *)
Definition specNicOps : NicOps := specOps (fun _ _ => None).

(** A stack with the IPv4 protocol registered and the given NICs, routes
    and [handleLocal] flag. *)
Definition ipv4Stack (handleLocal : bool) (ns : gmap Z nic) (t : list Route)
    (rf : option RawFactory) : Stack :=
  mkStack ∅ {[IPv4ProtocolNumber]} rf t ns [] 0 handleLocal.

Definition eth1 : nic := mkNic 1 "eth1" true [(IPv4ProtocolNumber, [10; 0; 0; 1])] None 101.
Definition lo2 : nic := mkNic 2 "lo" true [(IPv4ProtocolNumber, [127; 0; 0; 1])] None 102.

(** The subnet [a] whose mask starts with [nbytes] bytes [0xff]. *)
Definition subnetOf (a : list Z) (nbytes : nat) : Subnet :=
  mkSubnet a (repeat 255 nbytes ++ repeat 0 (4 - nbytes)).

Definition routeVia (a : list Z) (nbytes : nat) (id : Z) : Route :=
  mkRoute (subnetOf a nbytes) [] id [] 0.

(** A stack that handles local traffic, with [eth1] (10.0.0.1) and the
    loopback NIC [lo2] (127.0.0.1). *)
Definition hlStack : Stack :=
  ipv4Stack true (<[1 := eth1]> (<[2 := lo2]> ∅)) [] None.

(** NIC 3 is a port of the coordinator NIC 5; a route goes through 3. *)
Definition bond5 : nic := mkNic 5 "bond0" true [] None 105.
Definition port3 : nic := mkNic 3 "eth3" true [] (Some 5) 103.
Definition bondedStack : Stack :=
  ipv4Stack false (<[3 := port3]> (<[5 := bond5]> ∅)) [routeVia [10; 0; 0; 0] 1 3] None.

(** A coordinator whose [DelNIC] reports an error. *)
Definition failingCoordinatorOps : NicOps := specOps (fun _ _ => Some ErrNotSupported).

End SpecNic.

(* ------------------------------------------------------------------ *)
(** ** More of stack.go: route replacement, configuration, NIC naming,
    forwarding defaults *)

Module StackMore.
Import RouteTable StackOps.

(** [ReplaceRoute]: under one [routeMu] section, remove every entry [rt]
    with [rt.Equal(route)], then [addRouteLocked(route)]. [Equal] is the
    method [tcpip.Route.Equal] (package tcpip, not in this tree); every
    statement below holds for any such method. *)
Definition ReplaceRoute (Equal : Route -> Route -> bool) (route : Route) (t : list Route)
    : list Route :=
  addRouteLocked route (fst (removeRoutesLocked (fun rt => Equal rt route) t)).

(** Modelled from the spec: [Route.Equal] compares the lookup key; of the
    key fields (destination, type of service, scope, NIC) the [Route]
    record carries the destination and the NIC. *)
Definition routeKeyEqual (r1 r2 : Route) : bool :=
  bool_decide (Destination r1 = Destination r2) && bool_decide (NIC r1 = NIC r2).

Definition set_defaultForwardingEnabled (s : Stack) (d : list Z) : Stack :=
  mkStack (transportProtocols s) (networkProtocols s) (rawFactory s)
    (routeTable s) (nics s) d (nicIDGen s) (handleLocal s).

Section WithOps.
Variable ops : NicOps.

(** [SetNICName]: [nic.name = name] on the stored NIC. *)
Definition SetNICName (s : Stack) (id : Z) (name : string) : Stack * option Error :=
  match nics s !! id with
  | None => (s, Some ErrUnknownNICID)
  | Some n =>
      (set_nics s (<[id := mkNic (nic_id n) name (nic_enabled n) (nic_addrs n)
                                 (nic_primary n) (nic_linkEP n)]> (nics s)), None)
  end.

(** [FindNICNameFromID]: the NIC's name, or [""] for an unknown id. *)
Definition FindNICNameFromID (s : Stack) (id : Z) : string :=
  match nics s !! id with
  | None => ""%string
  | Some n => nic_name n
  end.

(** The [for id, nic := range s.nics] loop of
    [SetForwardingDefaultAndAllNICs]: the updated NIC map, the error of
    the first NIC when nothing was changed yet, or a panic when a NIC
    fails after another succeeded. *)
Fixpoint setForwardingAll (protocol : Z) (enable : bool) (l : list (Z * nic))
    (m : gmap Z nic) (doneOnce : bool) : outcome (gmap Z nic + Error) :=
  match l with
  | [] => Returned (inl m)
  | (id, n) :: l' =>
      match setForwarding ops n protocol enable with
      | inr err => if doneOnce then Panicked else Returned (inr err)
      | inl n' => setForwardingAll protocol enable l' (<[id := n']> m) true
      end
  end.

(** [SetForwardingDefaultAndAllNICs]. The set [defaultForwardingEnabled]
    is a list without duplicates: [enable] adds [protocol] if missing,
    otherwise [protocol] is deleted. *)
Definition SetForwardingDefaultAndAllNICs (s : Stack) (protocol : Z) (enable : bool)
    : outcome (Stack * option Error) :=
  match setForwardingAll protocol enable (map_to_list (nics s)) (nics s) false with
  | Panicked => Panicked
  | Returned (inr err) => Returned (s, Some err)
  | Returned (inl m) =>
      let d := defaultForwardingEnabled s in
      let d' := if enable
                then (if bool_decide (protocol ∈ d) then d else d ++ [protocol])
                else List.filter (fun p => negb (bool_decide (p = protocol))) d in
      Returned (set_defaultForwardingEnabled (set_nics s m) d', None)
  end.

(** The NIC loop of [ReplaceConfig]: each NIC of the loaded stack is put
    in the new map under its id, and a NIC id is consumed for it. (The
    re-parenting [nic.stack = s] has no counterpart in the model.) *)
Fixpoint replaceNICs (l : list (Z * nic)) (m : gmap Z nic) (s : Stack) : outcome Stack :=
  match l with
  | [] => Returned (set_nics s m)
  | (id, n) :: l' =>
      match NextNICID (set_nics s (<[id := n]> m)) with
      | Panicked => Panicked
      | Returned (s', _) => replaceNICs l' (<[id := n]> m) s'
      end
  end.

(** [ReplaceConfig(st)]: [s.SetRouteTable(st.GetRouteTable())], then the
    NIC map is rebuilt from [st]'s NICs (firewall tables are not
    modelled). *)
Definition ReplaceConfig (s st : Stack) : outcome Stack :=
  let s1 := set_routeTable s (SetRouteTable (GetRouteTable (routeTable st)) (routeTable s)) in
  replaceNICs (map_to_list (nics st)) ∅ s1.

End WithOps.
End StackMore.

(* ------------------------------------------------------------------ *)
(** ** [TransportEndpointInfo.AddrNetProtoLocked] *)

Module AddrNetProto.

(** [tcpip.FullAddress]. *)
Record FullAddress := mkFullAddress {
  faNIC : Z;
  faAddr : list Z;
  faPort : Z;
}.

(** [TransportEndpointInfo]: the endpoint's network protocol and the
    local address of its [ID]. *)
Record TransportEndpointInfo := mkTransportEndpointInfo {
  teNetProto : Z;
  teLocalAddress : list Z;
}.

(** [tcpip.ErrInvalidEndpointState], one of the [ErrOther] codes. *)
Definition ErrInvalidEndpointState : Error := ErrOther 0.

(** Package header and tcpip helpers (not in this tree), as they are
    defined there: the IPv4-mapped IPv6 prefix [::ffff:0:0/96], the
    unspecified (all-zero, possibly empty) address, [0.0.0.0] and
    [127.0.0.1]. *)
Definition IsV4MappedAddress (a : list Z) : bool :=
  bool_decide (BitLen a = 128) && bool_decide (take 12 a = repeat 0 10 ++ [255; 255]).

Definition Unspecified (a : list Z) : bool := forallb (fun b => bool_decide (b = 0)) a.

Definition IPv4Any : list Z := [0; 0; 0; 0].
Definition IPv4Loopback : list Z := [127; 0; 0; 1].

Definition set_faAddr (fa : FullAddress) (a : list Z) : FullAddress :=
  mkFullAddress (faNIC fa) a (faPort fa).

(** [AddrNetProtoLocked]. *)
Definition AddrNetProtoLocked (t : TransportEndpointInfo) (addr : FullAddress)
    (v6only bind : bool) : res (FullAddress * Z) :=
  let '(netProto, a) :=
    if bool_decide (BitLen (faAddr addr) = 32) then (IPv4ProtocolNumber, faAddr addr)
    else if bool_decide (BitLen (faAddr addr) = 128) then
      if IsV4MappedAddress (faAddr addr) then
        let a4 := drop 12 (faAddr addr) in
        (IPv4ProtocolNumber, if bool_decide (a4 = IPv4Any) then [] else a4)
      else (teNetProto t, faAddr addr)
    else (teNetProto t, faAddr addr) in
  let local := teLocalAddress t in
  if bool_decide (BitLen local = 32) && bool_decide (BitLen a = 128)
  then Fail ErrInvalidEndpointState else
  if bool_decide (BitLen local = 128) && bool_decide (BitLen a = 32)
  then Fail ErrNetworkUnreachable else
  let a :=
    if negb bind && Unspecified a then
      if Unspecified local then
        if bool_decide (netProto = IPv4ProtocolNumber) then IPv4Loopback
        else if bool_decide (netProto = IPv6ProtocolNumber) then IPv6Loopback
        else a
      else local
    else a in
  if bool_decide (netProto = teNetProto t) then Ok (set_faAddr addr a, netProto)
  else if bool_decide (netProto = IPv4ProtocolNumber)
          && bool_decide (teNetProto t = IPv6ProtocolNumber) then
    if v6only then Fail ErrHostUnreachable else Ok (set_faAddr addr a, netProto)
  else Fail ErrInvalidEndpointState.

End AddrNetProto.

(* ------------------------------------------------------------------ *)
(** ** Sample configurations for the further properties *)

Module MoreSamples.
Import StackOps SpecNic.

(** NICs on which [setForwarding] is not supported. *)
Definition noForwardingOps : NicOps := {|
  primaryEndpoint := primaryEndpoint specNicOps;
  findEndpoint := findEndpoint specNicOps;
  getAddressOrCreateTempInner := getAddressOrCreateTempInner specNicOps;
  hasAddress := hasAddress specNicOps;
  nicCheckLocalAddress := nicCheckLocalAddress specNicOps;
  isOutboundBroadcast := isOutboundBroadcast specNicOps;
  DelNIC := DelNIC specNicOps;
  nicRemove := nicRemove specNicOps;
  newNIC := newNIC specNicOps;
  setForwarding := fun _ _ _ => inr ErrNotSupported;
  nicEnable := nicEnable specNicOps;
  findRouteInTable := findRouteInTable specNicOps;
|}.

(** NICs on which [setForwarding] fails for NIC 1 only. *)
Definition partialForwardingOps : NicOps := {|
  primaryEndpoint := primaryEndpoint specNicOps;
  findEndpoint := findEndpoint specNicOps;
  getAddressOrCreateTempInner := getAddressOrCreateTempInner specNicOps;
  hasAddress := hasAddress specNicOps;
  nicCheckLocalAddress := nicCheckLocalAddress specNicOps;
  isOutboundBroadcast := isOutboundBroadcast specNicOps;
  DelNIC := DelNIC specNicOps;
  nicRemove := nicRemove specNicOps;
  newNIC := newNIC specNicOps;
  setForwarding := fun n _ _ =>
    if bool_decide (nic_id n = 1) then inr ErrNotSupported else inl n;
  nicEnable := nicEnable specNicOps;
  findRouteInTable := findRouteInTable specNicOps;
|}.

(** Two stacks: [hlStack] at pointer 7, with a route through NIC 1, and
    a stack without NICs at pointer 8 whose NIC id generator is at 4. *)
Definition srcStack : Stack := set_routeTable hlStack [routeVia [10; 0; 0; 0] 1 1].
Definition dstStack : Stack := set_nicIDGen (ipv4Stack false ∅ [] None) 4.
Definition twoStacks : gmap Z Stack := <[7 := srcStack]> {[8 := dstStack]}.

End MoreSamples.

(* ================================================================== *)
(** * Route table properties *)

Module RouteTableFacts.
Import RouteTable.

Lemma addRouteLocked_split (r : Route) (t : list Route) :
  exists pre post,
    t = pre ++ post /\
    addRouteLocked r t = pre ++ r :: post /\
    Forall (fun n => routePrefix r <= routePrefix n) pre /\
    (post = [] \/ exists n post', post = n :: post' /\ routePrefix n < routePrefix r).
Proof.
  induction t as [|n t IH]; simpl.
  - exists [], []. repeat split; auto.
  - case_decide.
    + exists [], (n :: t). repeat split; auto. right. eauto.
    + destruct IH as (pre & post & -> & Hadd & Hpre & Hpost).
      exists (n :: pre), post. rewrite Hadd. repeat split; auto.
      constructor; [lia | exact Hpre].
Qed.

Lemma addRouteLocked_sorted (r : Route) (t : list Route) :
  routes_sorted t -> routes_sorted (addRouteLocked r t).
Proof.
  unfold routes_sorted. induction t as [|n t IH]; simpl; intros Hs.
  - repeat constructor.
  - case_decide.
    + constructor; [exact Hs | constructor; lia].
    + inversion Hs as [|? ? Ht Hhd]; subst.
      constructor; [by apply IH |].
      destruct t as [|m t]; simpl.
      * constructor. lia.
      * inversion Hhd; subst. case_decide; constructor; lia.
Qed.

Lemma SetRouteTable_sorted_acc (table acc : list Route) :
  routes_sorted acc ->
  routes_sorted (fold_left (fun acc r => addRouteLocked r acc) table acc).
Proof.
  revert acc. induction table as [|r table IH]; simpl; intros acc Hs; auto.
  apply IH. by apply addRouteLocked_sorted.
Qed.

Lemma SetRouteTable_sorted (table old : list Route) :
  routes_sorted (SetRouteTable table old).
Proof. apply SetRouteTable_sorted_acc. constructor. Qed.

Lemma stepOp_sorted (t : list Route) (op : RouteOp) :
  routes_sorted t -> routes_sorted (stepOp t op).
Proof.
  destruct op; simpl; intros Hs.
  - by apply addRouteLocked_sorted.
  - apply SetRouteTable_sorted.
Qed.

Lemma sorted_tail_below (r : Route) (n : Route) (post : list Route) :
  routes_sorted (n :: post) -> routePrefix n < routePrefix r ->
  Forall (fun m => routePrefix m < routePrefix r) (n :: post).
Proof.
  unfold routes_sorted. intros Hs Hn.
  apply Sorted_StronglySorted in Hs; [| intros a b c; lia].
  inversion Hs as [|? ? _ Hall]; subst.
  constructor; [exact Hn |].
  eapply Forall_impl; [exact Hall | simpl; intros; lia].
Qed.

Lemma routes_sorted_app_r (pre post : list Route) :
  routes_sorted (pre ++ post) -> routes_sorted post.
Proof.
  unfold routes_sorted. induction pre as [|a pre IH]; simpl; auto.
  intros Hs. inversion Hs; subst. by apply IH.
Qed.

Lemma removeRoutesLocked_filter (p : Route -> bool) (t : list Route) :
  removeRoutesLocked p t = (List.filter (fun x => negb (p x)) t, length (List.filter p t)).
Proof.
  induction t as [|a t IH]; simpl; auto.
  rewrite IH. simpl. destruct (p a); simpl; reflexivity.
Qed.

Lemma routes_sorted_strong (t : list Route) :
  routes_sorted t <-> StronglySorted (fun a b => routePrefix b <= routePrefix a) t.
Proof.
  split; [apply Sorted_StronglySorted; intros ???; lia | apply StronglySorted_Sorted].
Qed.

Lemma filter_routes_sorted (f : Route -> bool) (t : list Route) :
  routes_sorted t -> routes_sorted (List.filter f t).
Proof.
  rewrite !routes_sorted_strong. induction t as [|a t IH]; simpl; intros Hs; [constructor |].
  apply StronglySorted_inv in Hs as [Hs Hf]. destruct (f a); [| by apply IH].
  constructor; [by apply IH |].
  rewrite Forall_forall in Hf |- *. intros x Hx.
  apply list_elem_of_In, filter_In in Hx as [Hx _]. apply Hf, list_elem_of_In, Hx.
Qed.

Lemma reachable_sorted (t : list Route) :
  reachable_table t -> routes_sorted t.
Proof.
  induction 1 as [| r t _ IH | table t _ _ | p t _ IH].
  - constructor.
  - by apply addRouteLocked_sorted.
  - apply SetRouteTable_sorted.
  - unfold RemoveRoutes. rewrite removeRoutesLocked_filter. simpl.
    by apply filter_routes_sorted.
Qed.

Lemma stepOp_reachable (t : list Route) (op : RouteOp) :
  reachable_table t -> reachable_table (stepOp t op).
Proof. destruct op; simpl; intros H; by constructor. Qed.

End RouteTableFacts.

(* ================================================================== *)
(** * Route table claims *)

Module RouteClaims.
Import RouteTable RouteTableFacts SpecNic.


(** C3: from every route table a stack can hold (the empty table of a
    new stack, and whatever [AddRoute], [SetRouteTable] and
    [RemoveRoutes] make of it), every sequence of [AddRoute] and
    [SetRouteTable] calls leaves [GetRouteTable] sorted by non-increasing
    prefix length. *)
Theorem C3_route_table_sorted (t : list Route) (ops : list RouteOp) :
  reachable_table t -> routes_sorted (GetRouteTable (runOps t ops)).
Proof.
  intros Hr. apply reachable_sorted.
  unfold GetRouteTable, runOps. revert t Hr.
  induction ops as [|op ops IH]; simpl; intros t Hr; auto.
  apply IH. by apply stepOp_reachable.
Qed.

Lemma C3_route_table_sorted_witness :
  reachable_table [] /\
  routes_sorted (GetRouteTable (runOps []
    [OpAddRoute (routeVia [10; 0; 0; 0] 1 1);
     OpAddRoute (routeVia [192; 168; 1; 0] 3 1);
     OpSetRouteTable [routeVia [0; 0; 0; 0] 0 2; routeVia [10; 1; 0; 0] 2 2]])).
Proof.
  split; [constructor |].
  apply (C3_route_table_sorted []); constructor.
Defined.

(** C4 (counterexample): a route added to a table holding one entry of
    the same prefix length goes after that entry, not before it. *)
Lemma C4_equal_prefix_goes_after :
  AddRoute (routeVia [11; 0; 0; 0] 1 2) [routeVia [10; 0; 0; 0] 1 1]
    = [routeVia [10; 0; 0; 0] 1 1; routeVia [11; 0; 0; 0] 1 2]
  /\ routePrefix (routeVia [10; 0; 0; 0] 1 1) = routePrefix (routeVia [11; 0; 0; 0] 1 2).
Proof. split; reflexivity. Qed.

(** C4 (amended): on a table sorted by non-increasing prefix length,
    [AddRoute r] splits the table into a front part whose entries all have
    a prefix at least as long as [r]'s and a back part whose entries all
    have a strictly shorter prefix, and puts [r] between them; the
    existing entries keep their order, so [r] follows every existing
    entry of equal prefix length. *)
Theorem C4_addRoute_position (r : Route) (t : list Route) :
  routes_sorted t ->
  exists pre post,
    t = pre ++ post /\
    GetRouteTable (AddRoute r t) = pre ++ r :: post /\
    Forall (fun n => routePrefix r <= routePrefix n) pre /\
    Forall (fun n => routePrefix n < routePrefix r) post.
Proof.
  intros Hs.
  destruct (addRouteLocked_split r t) as (pre & post & Ht & Hadd & Hpre & Hpost).
  exists pre, post. unfold GetRouteTable, AddRoute.
  repeat split; auto.
  destruct Hpost as [-> | (n & post' & -> & Hn)]; [constructor |].
  apply sorted_tail_below; auto.
  apply (routes_sorted_app_r pre). by rewrite <- Ht.
Qed.

Lemma C4_addRoute_position_witness :
  routes_sorted [routeVia [10; 1; 0; 0] 2 1; routeVia [10; 0; 0; 0] 1 1] /\
  exists pre post,
    [routeVia [10; 1; 0; 0] 2 1; routeVia [10; 0; 0; 0] 1 1] = pre ++ post /\
    GetRouteTable (AddRoute (routeVia [11; 0; 0; 0] 1 2)
                     [routeVia [10; 1; 0; 0] 2 1; routeVia [10; 0; 0; 0] 1 1])
      = pre ++ routeVia [11; 0; 0; 0] 1 2 :: post /\
    Forall (fun n => routePrefix (routeVia [11; 0; 0; 0] 1 2) <= routePrefix n) pre /\
    Forall (fun n => routePrefix n < routePrefix (routeVia [11; 0; 0; 0] 1 2)) post.
Proof.
  assert (Hs : routes_sorted [routeVia [10; 1; 0; 0] 2 1; routeVia [10; 0; 0; 0] 1 1]).
  { repeat constructor; vm_compute; discriminate. }
  split; [exact Hs |].
  exact (C4_addRoute_position (routeVia [11; 0; 0; 0] 1 2) _ Hs).
Defined.

(** C5: [RemoveRoutes p] keeps exactly the entries [p] rejects, in their
    previous order, and returns the number of entries [p] accepts. *)
Theorem C5_removeRoutes_exact (p : Route -> bool) (t : list Route) :
  RemoveRoutes p t = (List.filter (fun x => negb (p x)) t, length (List.filter p t)).
Proof. apply removeRoutesLocked_filter. Qed.




End RouteClaims.

(* ================================================================== *)
(** * NIC and stack claims *)

Module StackClaims.
Import RouteTable StackOps SpecNic.

Lemma lookup_in_nicList (s : Stack) (k : Z) (n : nic) :
  nics s !! k = Some n -> n ∈ nicList s.
Proof.
  intros Hk. unfold nicList. apply list_elem_of_In, in_map_iff.
  exists (k, n). split; [reflexivity |].
  apply list_elem_of_In, elem_of_map_to_list. exact Hk.
Qed.

Lemma firstWith_Some {A : Type} (p : A -> bool) (l : list A) (x : A) :
  firstWith p l = Some x -> x ∈ l /\ p x = true.
Proof.
  induction l as [|a l IH]; simpl; [discriminate |].
  destruct (p a) eqn:Ha.
  - intros [= <-]. split; [constructor | exact Ha].
  - intros H. destruct (IH H). split; [by constructor |]. assumption.
Qed.

(** C1 (counterexample): with [handleLocal] set, [FindRoute(1,
    10.0.0.1, 127.0.0.1, IPv4)] returns the local route through the NIC
    that owns 127.0.0.1 (NIC 2), although NIC 1 is present, enabled and
    yields an address endpoint for 10.0.0.1. *)
Lemma C1_handleLocal_route_first :
  CheckNetworkProtocol hlStack IPv4ProtocolNumber = true /\
  needRoute [127; 0; 0; 1] = false /\
  nics hlStack !! 1 = Some eth1 /\ nic_enabled eth1 = true /\
  getAddressEP specNicOps eth1 [10; 0; 0; 1] [127; 0; 0; 1] [] IPv4ProtocolNumber
    = Some [10; 0; 0; 1] /\
  exists r,
    FindRoute specNicOps hlStack 1 [10; 0; 0; 1] [127; 0; 0; 1] IPv4ProtocolNumber false = Ok r /\
    ri_outgoingNIC r = lo2 /\ lo2 <> eth1.
Proof.
  repeat split; try reflexivity.
  eexists. split; [vm_compute; reflexivity |]. split; [reflexivity | discriminate].
Qed.

Lemma findLocalRouteFromNICRLocked_owner (ops : NicOps) (s : Stack) (n : nic)
    (localAddr remoteAddr : list Z) (netProto : Z) (r : RouteInfo) :
  findLocalRouteFromNICRLocked ops s n localAddr remoteAddr netProto = Some r ->
  hasAddress ops (ri_outgoingNIC r) netProto remoteAddr = true /\
  (ri_outgoingNIC r = n \/ ri_outgoingNIC r ∈ nicList s).
Proof.
  unfold findLocalRouteFromNICRLocked.
  destruct (getAddressOrCreateTempInner ops n netProto localAddr) as [ep |]; [| discriminate].
  destruct (hasAddress ops n netProto remoteAddr) eqn:Hn.
  - destruct (isOutboundBroadcast ops _); [discriminate |].
    intros [= <-]. simpl. auto.
  - destruct (firstWith _ (nicList s)) as [out |] eqn:Hf; [| discriminate].
    apply firstWith_Some in Hf as [Hin Hout].
    destruct (isOutboundBroadcast ops _); [discriminate |].
    intros [= <-]. simpl. auto.
Qed.

Lemma foldr_first_Some {A B : Type} (f : A -> option B) (l : list A) (b : B) :
  foldr (fun x acc => match f x with Some r => Some r | None => acc end) None l = Some b ->
  exists x, x ∈ l /\ f x = Some b.
Proof.
  induction l as [|x l IH]; simpl; [discriminate |].
  destruct (f x) eqn:Hx.
  - intros [= <-]. exists x. split; [constructor | exact Hx].
  - intros H. destruct (IH H) as (y & Hy & Hf). exists y. split; [by constructor | exact Hf].
Qed.

Lemma localRouteAttempt_owner (ops : NicOps) (s : Stack) (id : Z)
    (localAddr remoteAddr : list Z) (netProto : Z) (r : RouteInfo) :
  localRouteAttempt ops s id localAddr remoteAddr netProto = Some r ->
  hasAddress ops (ri_outgoingNIC r) netProto remoteAddr = true /\ ri_outgoingNIC r ∈ nicList s.
Proof.
  unfold localRouteAttempt.
  destruct (handleLocal s && _ && _); [| discriminate].
  unfold findLocalRouteRLocked.
  set (la := if bool_decide (BitLen localAddr = 0) then remoteAddr else localAddr).
  case_bool_decide as Hz.
  - intros Hf. apply foldr_first_Some in Hf as (n & Hn & Hr).
    apply findLocalRouteFromNICRLocked_owner in Hr as [Hown [Heq | Hin]];
      [rewrite Heq in Hown |- *|]; split; assumption.
  - destruct (nics s !! id) as [n |] eqn:Hid; [| discriminate].
    intros Hr. apply findLocalRouteFromNICRLocked_owner in Hr as [Hown [Heq | Hin]].
    + rewrite Heq in Hown |- *.
      split; [exact Hown | by apply (lookup_in_nicList s id)].
    + split; assumption.
Qed.

(** C1 (amended): [FindRoute] returns [UnknownProtocol] when [netProto]
    is not registered. When it is registered, [id <> 0], no route-table
    route is needed (the remote address is link-local, local broadcast,
    multicast or loopback) and the [handleLocal] step finds no local
    route: if NIC [id] is present, enabled and yields an address
    endpoint, the result is a route leaving through that NIC with an
    empty gateway and MTU 0; otherwise the result is [BadLocalAddress]
    for a loopback remote and [NetworkUnreachable] for the others. The
    [handleLocal] step finds nothing unless the stack's [handleLocal]
    flag is set and the remote address is neither multicast nor the
    local broadcast address; when it finds a local route, [FindRoute]
    returns that route, and its outgoing NIC is a NIC of the stack that
    owns [remoteAddr]. *)
Theorem C1_FindRoute_direct (ops : NicOps) (s : Stack) (id : Z)
    (localAddr remoteAddr : list Z) (netProto : Z) (multicastLoop : bool) :
  (CheckNetworkProtocol s netProto = false ->
     FindRoute ops s id localAddr remoteAddr netProto multicastLoop = Fail ErrUnknownProtocol) /\
  (CheckNetworkProtocol s netProto = true -> id <> 0 -> needRoute remoteAddr = false ->
   localRouteAttempt ops s id localAddr remoteAddr netProto = None ->
   (forall n ep, nics s !! id = Some n -> nic_enabled n = true ->
      getAddressEP ops n localAddr remoteAddr [] netProto = Some ep ->
      exists r, FindRoute ops s id localAddr remoteAddr netProto multicastLoop = Ok r /\
                ri_outgoingNIC r = n /\ ri_gateway r = [] /\ ri_mtu r = 0) /\
   ((forall n, nics s !! id = Some n -> nic_enabled n = true ->
       getAddressEP ops n localAddr remoteAddr [] netProto = None) ->
    FindRoute ops s id localAddr remoteAddr netProto multicastLoop
      = Fail (if isLoopbackAddr remoteAddr then ErrBadLocalAddress else ErrNetworkUnreachable))) /\
  ((handleLocal s = false \/ isMulticastAddr remoteAddr = true \/
    isLocalBroadcastAddr remoteAddr = true) ->
   localRouteAttempt ops s id localAddr remoteAddr netProto = None) /\
  (forall r, CheckNetworkProtocol s netProto = true ->
   localRouteAttempt ops s id localAddr remoteAddr netProto = Some r ->
   FindRoute ops s id localAddr remoteAddr netProto multicastLoop = Ok r /\
   hasAddress ops (ri_outgoingNIC r) netProto remoteAddr = true /\
   ri_outgoingNIC r ∈ nicList s).
Proof.
  split; [| split; [| split]].
  - intros Hp. unfold FindRoute. by rewrite Hp.
  - intros Hp Hid Hneed Hlocal. unfold needRoute in Hneed.
    unfold FindRoute. rewrite Hp, Hlocal. cbv zeta. simpl negb.
    rewrite Hneed, (bool_decide_true _ Hid). simpl.
    split.
    + intros n ep Hn Hen Hep. rewrite Hn, Hen, Hep.
      eexists. repeat split; reflexivity.
    + intros Hnone.
      destruct (nics s !! id) as [n|] eqn:Hn; [| by destruct (isLoopbackAddr remoteAddr)].
      destruct (nic_enabled n) eqn:Hen; [| by destruct (isLoopbackAddr remoteAddr)].
      rewrite (Hnone n eq_refl Hen). by destruct (isLoopbackAddr remoteAddr).
  - intros Hcases. unfold localRouteAttempt.
    destruct Hcases as [H | [H | H]]; rewrite H; simpl;
      [reflexivity | by destruct (handleLocal s) | by rewrite andb_false_r].
  - intros r Hp Hr. split.
    + unfold FindRoute. rewrite Hp. simpl. by rewrite Hr.
    + exact (localRouteAttempt_owner ops s id localAddr remoteAddr netProto r Hr).
Qed.

Lemma C1_FindRoute_direct_witness :
  FindRoute specNicOps (ipv4Stack false (<[1 := eth1]> ∅) [] None) 1 [10; 0; 0; 1]
    [224; 0; 0; 1] IPv4ProtocolNumber false = Ok (makeRoute IPv4ProtocolNumber []
      [10; 0; 0; 1] [224; 0; 0; 1] eth1 eth1 [10; 0; 0; 1] false false 0) /\
  FindRoute specNicOps (ipv4Stack false ∅ [] None) 1 [] [127; 0; 0; 1]
    IPv4ProtocolNumber false = Fail ErrBadLocalAddress /\
  localRouteAttempt specNicOps (ipv4Stack false (<[1 := eth1]> ∅) [] None) 1 [10; 0; 0; 1]
    [10; 0; 0; 1] IPv4ProtocolNumber = None /\
  match localRouteAttempt specNicOps hlStack 1 [10; 0; 0; 1] [127; 0; 0; 1]
          IPv4ProtocolNumber with
  | Some r =>
      FindRoute specNicOps hlStack 1 [10; 0; 0; 1] [127; 0; 0; 1] IPv4ProtocolNumber false
        = Ok r /\
      hasAddress specNicOps (ri_outgoingNIC r) IPv4ProtocolNumber [127; 0; 0; 1] = true /\
      ri_outgoingNIC r ∈ nicList hlStack
  | None => False
  end.
Proof.
  destruct (C1_FindRoute_direct specNicOps (ipv4Stack false (<[1 := eth1]> ∅) [] None) 1
              [10; 0; 0; 1] [224; 0; 0; 1] IPv4ProtocolNumber false) as (_ & H1 & _).
  destruct (H1 (eq_refl) ltac:(lia) (eq_refl) (eq_refl)) as [H1a _].
  destruct (H1a eth1 [10; 0; 0; 1] eq_refl eq_refl eq_refl) as (r & Hr & _).
  destruct (C1_FindRoute_direct specNicOps (ipv4Stack false ∅ [] None) 1
              [] [127; 0; 0; 1] IPv4ProtocolNumber false) as (_ & H2 & _).
  destruct (H2 (eq_refl) ltac:(lia) (eq_refl) (eq_refl)) as [_ H2b].
  destruct (C1_FindRoute_direct specNicOps (ipv4Stack false (<[1 := eth1]> ∅) [] None) 1
              [10; 0; 0; 1] [10; 0; 0; 1] IPv4ProtocolNumber false) as (_ & _ & H3 & _).
  destruct (C1_FindRoute_direct specNicOps hlStack 1 [10; 0; 0; 1] [127; 0; 0; 1]
              IPv4ProtocolNumber false) as (_ & _ & _ & H4).
  split; [| split; [| split]].
  - rewrite Hr. vm_compute in Hr. vm_compute. congruence.
  - rewrite H2b; [reflexivity |]. intros n Hn. discriminate.
  - apply H3. left. reflexivity.
  - destruct (localRouteAttempt specNicOps hlStack 1 [10; 0; 0; 1] [127; 0; 0; 1]
                IPv4ProtocolNumber) as [r' |] eqn:E.
    + exact (H4 r' eq_refl eq_refl).
    + vm_compute in E. discriminate.
Defined.

(** The part of the RemoveNIC contract the code keeps: for an absent NIC
    nothing changes and [UnknownNICID] is returned; for a present NIC
    whose coordinator (if any) accepts [DelNIC], the NIC leaves the map
    and every route through it leaves the table. *)
Lemma RemoveNIC_when_coordinator_accepts (ops : NicOps) (s : Stack) (id : Z) :
  (nics s !! id = None -> RemoveNIC ops s id = (s, [], Some ErrUnknownNICID)) /\
  (forall n, nics s !! id = Some n ->
     (forall m, nic_primary n = Some m -> DelNIC ops m n = None) ->
     HasNIC (fst (fst (RemoveNIC ops s id))) id = false /\
     Forall (fun r => NIC r <> id) (GetRouteTable (routeTable (fst (fst (RemoveNIC ops s id)))))).
Proof.
  unfold RemoveNIC, removeNICLocked. split.
  - intros Hn. rewrite Hn. reflexivity.
  - intros n Hn Hdel. rewrite Hn.
    assert (Hpurge : forall ev,
      let '(s2, ev2, deferAct, err) :=
        (let s2 := set_routeTable (set_nics s (delete id (nics s)))
                     (List.filter (fun r => negb (bool_decide (NIC r = id)))
                        (routeTable (set_nics s (delete id (nics s))))) in
         let '(deferAct, err) := nicRemove ops n true in
         (s2, ev ++ [EvNicRemove id true], deferAct, err)) in
      HasNIC s2 id = false /\ Forall (fun r => NIC r <> id) (routeTable s2)).
    { intros ev. destruct (nicRemove ops n true) as [d e]. simpl. split.
      - unfold HasNIC. simpl. rewrite lookup_delete_eq. reflexivity.
      - apply Forall_forall. intros r Hr. apply list_elem_of_In, filter_In in Hr as [_ Hr].
        destruct (bool_decide (NIC r = id)) eqn:He; [discriminate |].
        by apply bool_decide_eq_false in He. }
    destruct (nic_primary n) as [m|] eqn:Hp.
    + rewrite (Hdel m eq_refl).
      specialize (Hpurge [EvDelNIC m id]).
      destruct (nicRemove ops n true) as [d e]. exact Hpurge.
    + specialize (Hpurge []).
      destruct (nicRemove ops n true) as [d e]. exact Hpurge.
Qed.

(** C2 (code bug): NIC 3 is a port of the coordinator NIC 5 and a route
    goes through NIC 3. When the coordinator's [DelNIC] fails,
    [removeNICLocked] has already deleted NIC 3 from the map and returns
    the error before purging routes: afterwards [HasNIC(3)] is false but
    the route through NIC 3 is still in the table. *)
Theorem C2_RemoveNIC_coordinator_error :
  HasNIC bondedStack 3 = true /\
  HasNIC (fst (fst (RemoveNIC failingCoordinatorOps bondedStack 3))) 3 = false /\
  GetRouteTable (routeTable (fst (fst (RemoveNIC failingCoordinatorOps bondedStack 3))))
    = [routeVia [10; 0; 0; 0] 1 3] /\
  snd (RemoveNIC failingCoordinatorOps bondedStack 3) = Some ErrNotSupported.
Proof. vm_compute. repeat split. Qed.

(** C7: [CreateNICWithOptions] returns [InvalidNICID] for id 0, and
    [DuplicateNICID] when the id is taken or a non-empty name is already
    used by a NIC; in each case the stack is returned unchanged and no
    effect is performed. *)
Theorem C7_CreateNIC_errors (ops : NicOps) (s : Stack) (id ep : Z) (opts : NICOptions) :
  (id = 0 -> CreateNICWithOptions ops s id ep opts = Returned (s, [], Some ErrInvalidNICID)) /\
  (id <> 0 -> is_Some (nics s !! id) ->
     CreateNICWithOptions ops s id ep opts = Returned (s, [], Some ErrDuplicateNICID)) /\
  (id <> 0 -> Name opts <> ""%string ->
     (exists k n, nics s !! k = Some n /\ nic_name n = Name opts) ->
     CreateNICWithOptions ops s id ep opts = Returned (s, [], Some ErrDuplicateNICID)).
Proof.
  unfold CreateNICWithOptions. repeat split.
  - intros ->. reflexivity.
  - intros Hid Hs. rewrite bool_decide_false by exact Hid.
    rewrite bool_decide_true by exact Hs. reflexivity.
  - intros Hid Hname (k & n & Hk & Hn).
    rewrite bool_decide_false by exact Hid.
    destruct (bool_decide (is_Some (nics s !! id))); [reflexivity |].
    rewrite bool_decide_true by exact Hname. simpl.
    replace (existsb _ _) with true; [reflexivity |].
    symmetry. apply existsb_exists. exists n. split.
    + apply list_elem_of_In. by apply (lookup_in_nicList s k).
    + by apply bool_decide_eq_true.
Qed.

Lemma C7_CreateNIC_errors_witness :
  CreateNICWithOptions specNicOps hlStack 0 7 defaultNICOptions
    = Returned (hlStack, [], Some ErrInvalidNICID) /\
  CreateNICWithOptions specNicOps hlStack 1 7 defaultNICOptions
    = Returned (hlStack, [], Some ErrDuplicateNICID) /\
  CreateNICWithOptions specNicOps hlStack 9 7 (mkNICOptions "lo" false)
    = Returned (hlStack, [], Some ErrDuplicateNICID).
Proof.
  destruct (C7_CreateNIC_errors specNicOps hlStack 0 7 defaultNICOptions) as [H0 _].
  destruct (C7_CreateNIC_errors specNicOps hlStack 1 7 defaultNICOptions) as [_ [H1 _]].
  destruct (C7_CreateNIC_errors specNicOps hlStack 9 7 (mkNICOptions "lo" false))
    as [_ [_ H2]].
  split; [exact (H0 eq_refl) |]. split.
  - apply H1; [lia | vm_compute; eexists; reflexivity].
  - apply H2; [lia | discriminate | exists 2, lo2; split; reflexivity].
Defined.

(** C8: on a stack with a nil raw factory, every [NewRawEndpoint] and
    every [NewPacketEndpoint] call returns [NotPermitted] (and no
    endpoint). *)
Theorem C8_no_raw_factory (s : Stack) :
  rawFactory s = None ->
  (forall transport network associated,
     NewRawEndpoint s transport network associated = Fail ErrNotPermitted) /\
  (forall cooked netProto, NewPacketEndpoint s cooked netProto = Fail ErrNotPermitted).
Proof.
  intros Hf. unfold NewRawEndpoint, NewPacketEndpoint. rewrite Hf. split; reflexivity.
Qed.

Lemma C8_no_raw_factory_witness :
  NewRawEndpoint hlStack 6 IPv4ProtocolNumber true = Fail ErrNotPermitted /\
  NewPacketEndpoint hlStack false IPv4ProtocolNumber = Fail ErrNotPermitted.
Proof.
  destruct (C8_no_raw_factory hlStack eq_refl) as [H1 H2].
  split; [apply H1 | apply H2].
Defined.

(** C9: for a NIC stored under [nicID <> 0] whose id is [nicID],
    [CheckLocalAddress(nicID, IPv4, addr)] is [nicID] for every [addr];
    for any other protocol it is [nicID] exactly when the NIC's own
    address check accepts [addr] (0 otherwise); with [nicID = 0] a
    non-zero answer is the id of some NIC whose address check accepts
    [addr]. *)
Theorem C9_CheckLocalAddress_ipv4 (ops : NicOps) (s : Stack) (nicID : Z) (n : nic) :
  nicID <> 0 -> nics s !! nicID = Some n -> nic_id n = nicID ->
  (forall addr, CheckLocalAddress ops s nicID IPv4ProtocolNumber addr = nicID) /\
  (forall protocol addr, protocol <> IPv4ProtocolNumber ->
     CheckLocalAddress ops s nicID protocol addr
       = if nicCheckLocalAddress ops n protocol addr then nicID else 0) /\
  (forall protocol addr, CheckLocalAddress ops s 0 protocol addr <> 0 ->
     exists m, m ∈ nicList s /\ nicCheckLocalAddress ops m protocol addr = true /\
               nic_id m = CheckLocalAddress ops s 0 protocol addr).
Proof.
  intros Hid Hn Hnid. unfold CheckLocalAddress.
  rewrite (bool_decide_true _ Hid), Hn. repeat split.
  - intros addr. by rewrite bool_decide_true.
  - intros protocol addr Hp. rewrite bool_decide_false by exact Hp.
    by destruct (nicCheckLocalAddress ops n protocol addr).
  - intros protocol addr. rewrite bool_decide_false by lia.
    destruct (firstWith _ _) as [m|] eqn:Hf; [| intros []; reflexivity].
    intros _. apply firstWith_Some in Hf as [Hm Hc]. eauto.
Qed.

Lemma C9_CheckLocalAddress_ipv4_witness :
  CheckLocalAddress specNicOps hlStack 1 IPv4ProtocolNumber [192; 168; 9; 9] = 1 /\
  CheckLocalAddress specNicOps hlStack 1 IPv6ProtocolNumber IPv6Loopback = 0.
Proof.
  destruct (C9_CheckLocalAddress_ipv4 specNicOps hlStack 1 eth1 ltac:(lia) eq_refl eq_refl)
    as [H4 [H6 _]].
  split; [apply H4 |].
  rewrite H6 by (vm_compute; discriminate). reflexivity.
Defined.

(** C10: [SetNICStack(id, s)] with [s] as its own peer returns [(id,
    nil)] and leaves every stack unchanged, with no effect on the link
    endpoint. *)
Theorem C10_SetNICStack_same_stack (ops : NicOps) (heap : gmap Z Stack) (sp id : Z)
    (s : Stack) (n : nic) :
  heap !! sp = Some s -> nics s !! id = Some n ->
  SetNICStack ops heap sp id sp = Returned (heap, [], (id, None)).
Proof.
  intros Hs Hn. unfold SetNICStack. rewrite Hs, Hn.
  by rewrite bool_decide_true.
Qed.

Lemma C10_SetNICStack_same_stack_witness :
  SetNICStack specNicOps {[7 := hlStack]} 7 2 7 = Returned ({[7 := hlStack]}, [], (2, None)).
Proof. exact (C10_SetNICStack_same_stack specNicOps {[7 := hlStack]} 7 2 hlStack lo2
                eq_refl eq_refl). Defined.

End StackClaims.

(* ================================================================== *)
(** * Further properties of stack.go *)

Module RouteExtras.
Import RouteTable RouteTableFacts StackMore SpecNic.

Lemma addRouteLocked_perm (r : Route) (t : list Route) :
  addRouteLocked r t ≡ₚ r :: t.
Proof.
  induction t as [|n t IH]; simpl; [reflexivity |].
  case_decide; [reflexivity |].
  rewrite IH. apply Permutation_swap.
Qed.

Lemma SetRouteTable_perm_acc (table acc : list Route) :
  fold_left (fun acc r => addRouteLocked r acc) table acc ≡ₚ table ++ acc.
Proof.
  revert acc. induction table as [|r table IH]; simpl; intros acc; [reflexivity |].
  rewrite IH, addRouteLocked_perm. symmetry. apply Permutation_middle.
Qed.

Lemma addRouteLocked_back (r : Route) (t : list Route) :
  Forall (fun n => routePrefix r <= routePrefix n) t -> addRouteLocked r t = t ++ [r].
Proof.
  induction t as [|n t IH]; simpl; intros Hf; [reflexivity |].
  inversion Hf; subst. rewrite decide_False by lia. f_equal. by apply IH.
Qed.

Lemma StronglySorted_app_inv {A} (R : A -> A -> Prop) (l1 l2 : list A) :
  StronglySorted R (l1 ++ l2) -> forall x y, In x l1 -> In y l2 -> R x y.
Proof.
  induction l1 as [|a l1 IH]; simpl; [tauto |].
  intros Hs x y Hx Hy. apply StronglySorted_inv in Hs as [Hs Hf].
  destruct Hx as [<- | Hx].
  - rewrite Forall_forall in Hf. apply Hf, list_elem_of_In, in_or_app. by right.
  - by apply IH.
Qed.

Lemma SetRouteTable_sorted_rebuild (table acc : list Route) :
  routes_sorted (acc ++ table) ->
  fold_left (fun acc r => addRouteLocked r acc) table acc = acc ++ table.
Proof.
  revert acc. induction table as [|r table IH]; simpl; intros acc Hs.
  - by rewrite app_nil_r.
  - rewrite addRouteLocked_back.
    + rewrite IH; [by rewrite <- app_assoc |]. by rewrite <- app_assoc.
    + apply Forall_forall. intros n Hn. apply routes_sorted_strong in Hs.
      apply (StronglySorted_app_inv _ _ _ Hs); [by apply list_elem_of_In | by left].
Qed.

Lemma filter_filter_bool {A} (f g : A -> bool) (l : list A) :
  List.filter f (List.filter g l) = List.filter (fun x => g x && f x) l.
Proof.
  induction l as [|a l IH]; simpl; [done |].
  destruct (g a); simpl; [destruct (f a); simpl |]; by rewrite IH.
Qed.

(** [SetRouteTable] keeps exactly the given entries, each as often as it
    is given, whatever the previous table, and puts them in
    longest-prefix-first order. *)
Theorem SetRouteTable_permutation (table old : list Route) :
  SetRouteTable table old ≡ₚ table /\ routes_sorted (SetRouteTable table old).
Proof.
  split; [| apply SetRouteTable_sorted].
  unfold SetRouteTable. rewrite SetRouteTable_perm_acc. by rewrite app_nil_r.
Qed.

(** Copying a table that is already in longest-prefix-first order with
    [SetRouteTable(GetRouteTable())], as [ReplaceConfig] does, gives back
    the same list, order included (entries of equal prefix length keep
    their order). *)
Theorem SetRouteTable_GetRouteTable_sorted (t old : list Route) :
  routes_sorted t -> SetRouteTable (GetRouteTable t) old = t.
Proof.
  intros Hs. unfold SetRouteTable, GetRouteTable.
  by apply (SetRouteTable_sorted_rebuild t []).
Qed.

Lemma SetRouteTable_GetRouteTable_sorted_witness :
  routes_sorted [routeVia [10; 0; 0; 0] 3 1; routeVia [10; 1; 0; 0] 2 2;
                 routeVia [10; 2; 0; 0] 2 1] /\
  SetRouteTable (GetRouteTable [routeVia [10; 0; 0; 0] 3 1; routeVia [10; 1; 0; 0] 2 2;
                                routeVia [10; 2; 0; 0] 2 1]) []
    = [routeVia [10; 0; 0; 0] 3 1; routeVia [10; 1; 0; 0] 2 2; routeVia [10; 2; 0; 0] 2 1].
Proof.
  assert (Hs : routes_sorted [routeVia [10; 0; 0; 0] 3 1; routeVia [10; 1; 0; 0] 2 2;
                              routeVia [10; 2; 0; 0] 2 1]).
  { unfold routes_sorted. repeat constructor; vm_compute; discriminate. }
  split; [exact Hs |]. exact (SetRouteTable_GetRouteTable_sorted _ [] Hs).
Defined.

(** Two [RemoveRoutes] calls in a row remove what one call with the
    disjunction of the two predicates removes, and the two counts add
    up to its count. *)
Theorem RemoveRoutes_compose (p q : Route -> bool) (t : list Route) :
  let '(t1, c1) := RemoveRoutes p t in
  let '(t2, c2) := RemoveRoutes q t1 in
  RemoveRoutes (fun r => p r || q r) t = (t2, (c1 + c2)%nat).
Proof.
  unfold RemoveRoutes. rewrite !removeRoutesLocked_filter. simpl.
  induction t as [|a t IH]; simpl; [reflexivity |].
  injection IH as IH1 IH2.
  destruct (p a) eqn:Hp, (q a) eqn:Hq; simpl; rewrite ?Hp, ?Hq; simpl;
    rewrite ?IH1, ?IH2; f_equal; lia.
Qed.

(** [RemoveRoutes] keeps the longest-prefix-first order of the table. *)
Theorem RemoveRoutes_sorted (p : Route -> bool) (t : list Route) :
  routes_sorted t -> routes_sorted (fst (RemoveRoutes p t)).
Proof.
  intros Hs. unfold RemoveRoutes. rewrite removeRoutesLocked_filter. simpl.
  by apply filter_routes_sorted.
Qed.

Lemma RemoveRoutes_sorted_witness :
  routes_sorted [routeVia [10; 0; 0; 0] 3 1; routeVia [10; 1; 0; 0] 2 2] /\
  routes_sorted (fst (RemoveRoutes (fun r => bool_decide (NIC r = 2))
                        [routeVia [10; 0; 0; 0] 3 1; routeVia [10; 1; 0; 0] 2 2])).
Proof.
  assert (Hs : routes_sorted [routeVia [10; 0; 0; 0] 3 1; routeVia [10; 1; 0; 0] 2 2]).
  { unfold routes_sorted. repeat constructor; vm_compute; discriminate. }
  split; [exact Hs | exact (RemoveRoutes_sorted _ _ Hs)].
Defined.

(** [ReplaceRoute(route)] leaves the table holding [route] once plus
    every entry that is not [Equal] to it, in longest-prefix-first order
    when the table was. *)
Theorem ReplaceRoute_spec (Equal : Route -> Route -> bool) (route : Route) (t : list Route) :
  routes_sorted t ->
  ReplaceRoute Equal route t ≡ₚ route :: List.filter (fun rt => negb (Equal rt route)) t /\
  routes_sorted (ReplaceRoute Equal route t).
Proof.
  intros Hs. unfold ReplaceRoute. rewrite removeRoutesLocked_filter. simpl. split.
  - apply addRouteLocked_perm.
  - by apply addRouteLocked_sorted, filter_routes_sorted.
Qed.

Lemma ReplaceRoute_spec_witness :
  ReplaceRoute routeKeyEqual (mkRoute (subnetOf [10; 0; 0; 0] 1) [10; 0; 0; 9] 1 [] 0)
    [routeVia [10; 0; 0; 0] 3 2; routeVia [10; 0; 0; 0] 1 1]
  ≡ₚ mkRoute (subnetOf [10; 0; 0; 0] 1) [10; 0; 0; 9] 1 [] 0 :: [routeVia [10; 0; 0; 0] 3 2].
Proof.
  assert (Hs : routes_sorted [routeVia [10; 0; 0; 0] 3 2; routeVia [10; 0; 0; 0] 1 1]).
  { unfold routes_sorted. repeat constructor; vm_compute; discriminate. }
  exact (proj1 (ReplaceRoute_spec routeKeyEqual
                  (mkRoute (subnetOf [10; 0; 0; 0] 1) [10; 0; 0; 9] 1 [] 0) _ Hs)).
Defined.

(** [ReplaceRoute] twice with the same route is [ReplaceRoute] once,
    when the route is [Equal] to itself. *)
Theorem ReplaceRoute_idempotent (Equal : Route -> Route -> bool) (route : Route)
    (t : list Route) :
  Equal route route = true ->
  ReplaceRoute Equal route (ReplaceRoute Equal route t) = ReplaceRoute Equal route t.
Proof.
  intros Hrefl. unfold ReplaceRoute. rewrite !removeRoutesLocked_filter. simpl.
  f_equal. destruct (addRouteLocked_split route
                       (List.filter (fun rt => negb (Equal rt route)) t))
    as (pre & post & Heq & Hadd & _).
  rewrite Hadd, List.filter_app. simpl. rewrite Hrefl. simpl.
  rewrite <- List.filter_app, <- Heq.
  rewrite filter_filter_bool. apply List.filter_ext. intros a. by destruct (Equal a route).
Qed.

Lemma ReplaceRoute_idempotent_witness :
  ReplaceRoute routeKeyEqual (routeVia [10; 0; 0; 0] 1 1)
    (ReplaceRoute routeKeyEqual (routeVia [10; 0; 0; 0] 1 1) [routeVia [10; 0; 0; 0] 3 2])
  = ReplaceRoute routeKeyEqual (routeVia [10; 0; 0; 0] 1 1) [routeVia [10; 0; 0; 0] 3 2].
Proof. exact (ReplaceRoute_idempotent routeKeyEqual (routeVia [10; 0; 0; 0] 1 1) _ eq_refl). Defined.

End RouteExtras.

Module StackExtras.
Import RouteTable RouteTableFacts StackOps SpecNic StackMore MoreSamples RouteExtras.

Lemma wrap32_id (z : Z) : - 2 ^ 31 <= z < 2 ^ 31 -> wrap32 z = z.
Proof. intros Hz. unfold wrap32. rewrite Z.mod_small by lia. lia. Qed.

Lemma RemoveNIC_result (ops : NicOps) (s : Stack) (id : Z) (n : nic) :
  nics s !! id = Some n ->
  (forall m, nic_primary n = Some m -> DelNIC ops m n = None) ->
  fst (fst (RemoveNIC ops s id))
  = set_routeTable (set_nics s (delete id (nics s)))
      (List.filter (fun r => negb (bool_decide (NIC r = id))) (routeTable s)).
Proof.
  intros Hn Hdel. unfold RemoveNIC, removeNICLocked. rewrite Hn. cbv zeta.
  destruct (nic_primary n) as [m|] eqn:Hp; [rewrite (Hdel m eq_refl) |];
    destruct (nicRemove ops n true) as [d e]; reflexivity.
Qed.

Lemma name_check_false (s : Stack) (opts : NICOptions) :
  (Name opts = ""%string \/ forall k m, nics s !! k = Some m -> nic_name m <> Name opts) ->
  bool_decide (Name opts <> "")%string
    && existsb (fun n => bool_decide (nic_name n = Name opts)) (nicList s) = false.
Proof.
  intros [Hn | Hfree].
  - rewrite bool_decide_false; [reflexivity | tauto].
  - destruct (bool_decide _); [simpl | reflexivity].
    apply not_true_is_false. intros Hex. apply existsb_exists in Hex as (x & Hx & Heq).
    apply bool_decide_eq_true in Heq. unfold nicList in Hx.
    apply in_map_iff in Hx as ([k m] & <- & Hkm).
    apply list_elem_of_In, elem_of_map_to_list in Hkm. exact (Hfree k m Hkm Heq).
Qed.

Lemma CreateNICWithOptions_result (ops : NicOps) (s : Stack) (id ep : Z) (opts : NICOptions)
    (n : nic) :
  id <> 0 -> nics s !! id = None ->
  (Name opts = ""%string \/ forall k m, nics s !! k = Some m -> nic_name m <> Name opts) ->
  applyDefaultForwarding ops (newNIC ops id ep opts) (defaultForwardingEnabled s) = Some n ->
  exists ev err n',
    CreateNICWithOptions ops s id ep opts = Returned (set_nics s (<[id := n']> (nics s)), ev, err) /\
    (Disabled opts = true -> n' = n /\ err = None).
Proof.
  intros Hid Hfree Hname Happ. unfold CreateNICWithOptions.
  rewrite bool_decide_false by exact Hid.
  rewrite bool_decide_false by (rewrite Hfree; apply is_Some_None).
  rewrite name_check_false by exact Hname. rewrite Happ.
  destruct (Disabled opts) eqn:Hd; simpl.
  - do 3 eexists. split; [reflexivity | auto].
  - destruct (nicEnable ops n) as [n' e]. do 3 eexists. split; [reflexivity | discriminate].
Qed.

Lemma CreateNICWithOptions_no_remove (ops : NicOps) (s s' : Stack) (id ep : Z)
    (opts : NICOptions) (ev : list Event) (err : option Error) :
  CreateNICWithOptions ops s id ep opts = Returned (s', ev, err) ->
  forall i b, EvNicRemove i b ∉ ev.
Proof.
  intros H i b Hin. unfold CreateNICWithOptions in H.
  repeat match type of H with
  | context [if ?c then _ else _] => destruct c
  | context [match nicEnable ops ?n with _ => _ end] => destruct (nicEnable ops n)
  | context [match applyDefaultForwarding ops ?n ?l with _ => _ end] =>
      destruct (applyDefaultForwarding ops n l)
  end; simplify_eq; simpl in Hin;
  repeat (apply elem_of_cons in Hin as [Hin | Hin]; [discriminate |]);
  by apply elem_of_nil in Hin.
Qed.

Lemma CreateNICWithOptions_ok (ops : NicOps) (s s' : Stack) (id ep : Z)
    (opts : NICOptions) (ev : list Event) :
  CreateNICWithOptions ops s id ep opts = Returned (s', ev, None) ->
  is_Some (nics s' !! id) /\ nicIDGen s' = nicIDGen s.
Proof.
  intros H. unfold CreateNICWithOptions in H.
  repeat match type of H with
  | context [if ?c then _ else _] => destruct c
  | context [match nicEnable ops ?n with _ => _ end] => destruct (nicEnable ops n)
  | context [match applyDefaultForwarding ops ?n ?l with _ => _ end] =>
      destruct (applyDefaultForwarding ops n l)
  end; simplify_eq; simpl; split; auto; rewrite lookup_insert_eq; eauto.
Qed.

Lemma replaceNICs_ok (l : list (Z * nic)) (m : gmap Z nic) (s : Stack) :
  NoDup l.*1 -> 0 <= nicIDGen s -> nicIDGen s + Z.of_nat (length l) < 2 ^ 31 ->
  replaceNICs l m s
  = Returned (mkStack (transportProtocols s) (networkProtocols s) (rawFactory s)
                (routeTable s) (list_to_map l ∪ m) (defaultForwardingEnabled s)
                (nicIDGen s + Z.of_nat (length l)) (handleLocal s)).
Proof.
  revert m s. induction l as [|[i x] l IH]; intros m s Hnd Hg Hlen; simpl.
  - rewrite (left_id_L ∅ (∪)), Z.add_0_r. by destruct s.
  - simpl in Hnd, Hlen. apply NoDup_cons in Hnd as [Hi Hnd].
    unfold NextNICID. simpl. rewrite wrap32_id by lia. rewrite bool_decide_false by lia.
    rewrite IH by (simpl; lia || done). simpl. f_equal. f_equal.
    + rewrite <- insert_union_r by (by apply not_elem_of_list_to_map_1).
      by rewrite insert_union_l.
    + lia.
Qed.

(** [RemoveNIC] of a NIC whose coordinator (if any) accepts [DelNIC]
    removes that NIC and exactly the routes through it: the other NICs,
    the other routes and their order, the NIC id generator and the
    forwarding defaults stay as they were. *)
Theorem RemoveNIC_removes_only_target (ops : NicOps) (s : Stack) (id : Z) (n : nic) :
  nics s !! id = Some n ->
  (forall m, nic_primary n = Some m -> DelNIC ops m n = None) ->
  nics (fst (fst (RemoveNIC ops s id))) = delete id (nics s) /\
  routeTable (fst (fst (RemoveNIC ops s id)))
    = List.filter (fun r => negb (bool_decide (NIC r = id))) (routeTable s) /\
  (routes_sorted (routeTable s) -> routes_sorted (routeTable (fst (fst (RemoveNIC ops s id))))) /\
  nicIDGen (fst (fst (RemoveNIC ops s id))) = nicIDGen s /\
  defaultForwardingEnabled (fst (fst (RemoveNIC ops s id))) = defaultForwardingEnabled s.
Proof.
  intros Hn Hdel. rewrite (RemoveNIC_result ops s id n Hn Hdel). simpl.
  split; [reflexivity |]. split; [reflexivity |].
  split; [apply filter_routes_sorted | split; reflexivity].
Qed.

Lemma RemoveNIC_removes_only_target_witness :
  nics (fst (fst (RemoveNIC specNicOps srcStack 1))) = delete 1 (nics srcStack) /\
  routeTable (fst (fst (RemoveNIC specNicOps srcStack 1))) = [].
Proof.
  destruct (RemoveNIC_removes_only_target specNicOps srcStack 1 eth1 eq_refl
              (fun m H => eq_refl)) as (H1 & H2 & _).
  split; [exact H1 | rewrite H2; reflexivity].
Defined.

(** [CreateNICWithOptions] with a free non-zero id, a free (or empty)
    name and no forwarding panic stores the new NIC under [id] and
    leaves the other NICs, the routes and the NIC id generator alone; a
    NIC created disabled is stored as built and reports no error. *)
Theorem CreateNICWithOptions_adds (ops : NicOps) (s : Stack) (id ep : Z) (opts : NICOptions)
    (n : nic) :
  id <> 0 -> nics s !! id = None ->
  (Name opts = ""%string \/ forall k m, nics s !! k = Some m -> nic_name m <> Name opts) ->
  applyDefaultForwarding ops (newNIC ops id ep opts) (defaultForwardingEnabled s) = Some n ->
  exists s' ev err n',
    CreateNICWithOptions ops s id ep opts = Returned (s', ev, err) /\
    nics s' = <[id := n']> (nics s) /\ routeTable s' = routeTable s /\
    nicIDGen s' = nicIDGen s /\ (Disabled opts = true -> n' = n /\ err = None).
Proof.
  intros Hid Hfree Hname Happ.
  destruct (CreateNICWithOptions_result ops s id ep opts n Hid Hfree Hname Happ)
    as (ev & err & n' & H & Hdis).
  exists (set_nics s (<[id := n']> (nics s))), ev, err, n'.
  split; [exact H |]. split; [reflexivity |]. split; [reflexivity |].
  split; [reflexivity | exact Hdis].
Qed.

Lemma CreateNICWithOptions_adds_witness :
  exists s' ev err n',
    CreateNICWithOptions specNicOps hlStack 3 103 (mkNICOptions "eth3" true)
      = Returned (s', ev, err) /\
    nics s' = <[3 := n']> (nics hlStack) /\ routeTable s' = routeTable hlStack /\
    nicIDGen s' = nicIDGen hlStack /\
    (Disabled (mkNICOptions "eth3" true) = true -> n' = mkNic 3 "eth3" false [] None 103 /\
     err = None).
Proof.
  apply (CreateNICWithOptions_adds specNicOps hlStack 3 103 (mkNICOptions "eth3" true)
           (mkNic 3 "eth3" false [] None 103)).
  - lia.
  - reflexivity.
  - right. intros k m Hk. unfold hlStack, ipv4Stack in Hk. simpl in Hk.
    rewrite !lookup_insert_Some, lookup_empty in Hk.
    destruct Hk as [[_ <-] | [_ [[_ <-] | [_ Hk]]]]; discriminate.
  - reflexivity.
Defined.

(** Creating a NIC and then removing it gives back the NIC map the
    stack had, and the route table loses only the routes through that
    id, when coordinators accept [DelNIC]. *)
Theorem CreateNIC_RemoveNIC_roundtrip (ops : NicOps) (s : Stack) (id ep : Z)
    (opts : NICOptions) (n : nic) :
  id <> 0 -> nics s !! id = None ->
  (Name opts = ""%string \/ forall k m, nics s !! k = Some m -> nic_name m <> Name opts) ->
  applyDefaultForwarding ops (newNIC ops id ep opts) (defaultForwardingEnabled s) = Some n ->
  (forall m x, DelNIC ops m x = None) ->
  exists s' ev err,
    CreateNICWithOptions ops s id ep opts = Returned (s', ev, err) /\
    nics (fst (fst (RemoveNIC ops s' id))) = nics s /\
    routeTable (fst (fst (RemoveNIC ops s' id)))
      = List.filter (fun r => negb (bool_decide (NIC r = id))) (routeTable s).
Proof.
  intros Hid Hfree Hname Happ Hdel.
  destruct (CreateNICWithOptions_result ops s id ep opts n Hid Hfree Hname Happ)
    as (ev & err & n' & H & _).
  exists (set_nics s (<[id := n']> (nics s))), ev, err. split; [exact H |].
  rewrite (RemoveNIC_result ops _ id n'); simpl.
  - split; [by apply delete_insert_id | reflexivity].
  - apply lookup_insert_eq.
  - intros m _. apply Hdel.
Qed.

Lemma CreateNIC_RemoveNIC_roundtrip_witness :
  exists s' ev err,
    CreateNICWithOptions specNicOps hlStack 3 103 defaultNICOptions = Returned (s', ev, err) /\
    nics (fst (fst (RemoveNIC specNicOps s' 3))) = nics hlStack /\
    routeTable (fst (fst (RemoveNIC specNicOps s' 3))) = [].
Proof.
  destruct (CreateNIC_RemoveNIC_roundtrip specNicOps hlStack 3 103 defaultNICOptions
              (mkNic 3 "" false [] None 103) ltac:(lia) eq_refl (or_introl eq_refl) eq_refl
              (fun _ _ => eq_refl)) as (s' & ev & err & H1 & H2 & H3).
  exists s', ev, err. split; [exact H1 |]. split; [exact H2 | rewrite H3; reflexivity].
Defined.

(** [NextNICID] on a generator in the non-negative int32 range returns
    and stores the next id, which is positive, except at the int32
    maximum, where the addition wraps to a negative value and it
    panics. *)
Theorem NextNICID_bounds (s : Stack) :
  0 <= nicIDGen s <= 2 ^ 31 - 1 ->
  NextNICID s = if bool_decide (nicIDGen s = 2 ^ 31 - 1) then Panicked
                else Returned (set_nicIDGen s (nicIDGen s + 1), nicIDGen s + 1).
Proof.
  intros Hg. unfold NextNICID.
  destruct (decide (nicIDGen s = 2 ^ 31 - 1)) as [Hmax | Hmax].
  - rewrite (bool_decide_true _ Hmax), Hmax. reflexivity.
  - rewrite (bool_decide_false _ Hmax), wrap32_id by lia.
    rewrite bool_decide_false by lia. reflexivity.
Qed.

Lemma NextNICID_bounds_witness :
  NextNICID dstStack = Returned (set_nicIDGen dstStack 5, 5) /\
  NextNICID (set_nicIDGen dstStack (2 ^ 31 - 1)) = Panicked.
Proof.
  split.
  - exact (NextNICID_bounds dstStack ltac:(vm_compute; split; discriminate)).
  - exact (NextNICID_bounds (set_nicIDGen dstStack (2 ^ 31 - 1))
             ltac:(simpl; lia)).
Defined.

Lemma ReplaceConfig_result (s st : Stack) :
  routes_sorted (routeTable st) -> 0 <= nicIDGen s ->
  nicIDGen s + Z.of_nat (size (nics st)) < 2 ^ 31 ->
  ReplaceConfig s st
  = Returned (mkStack (transportProtocols s) (networkProtocols s) (rawFactory s)
                (routeTable st) (nics st) (defaultForwardingEnabled s)
                (nicIDGen s + Z.of_nat (size (nics st))) (handleLocal s)).
Proof.
  intros Hs Hg Hlen. unfold ReplaceConfig.
  rewrite replaceNICs_ok; simpl.
  - rewrite (right_id_L ∅ (∪)), list_to_map_to_list, length_map_to_list.
    unfold SetRouteTable, GetRouteTable.
    rewrite (SetRouteTable_sorted_rebuild (routeTable st) [] Hs). reflexivity.
  - apply NoDup_fst_map_to_list.
  - exact Hg.
  - rewrite length_map_to_list. exact Hlen.
Qed.

(** [ReplaceConfig(st)] with a longest-prefix-first route table in [st]
    and room in the NIC id generator copies [st]'s routes (same list,
    same order) and NICs (same map) into [s], advances [s]'s generator
    once per NIC, and leaves [s]'s transport and network protocols, raw
    factory, default forwarding settings and [handleLocal] as they were.
    The source also copies [st]'s firewall tables ([tables] and
    [nftables]) into [s]; those fields are not modelled, and nothing is
    stated about them. *)
Theorem ReplaceConfig_copies (s st : Stack) :
  routes_sorted (routeTable st) -> 0 <= nicIDGen s ->
  nicIDGen s + Z.of_nat (size (nics st)) < 2 ^ 31 ->
  exists s',
    ReplaceConfig s st = Returned s' /\
    routeTable s' = routeTable st /\ nics s' = nics st /\
    nicIDGen s' = nicIDGen s + Z.of_nat (size (nics st)) /\
    transportProtocols s' = transportProtocols s /\
    networkProtocols s' = networkProtocols s /\ rawFactory s' = rawFactory s /\
    defaultForwardingEnabled s' = defaultForwardingEnabled s /\
    handleLocal s' = handleLocal s.
Proof.
  intros Hs Hg Hlen. eexists. split; [exact (ReplaceConfig_result s st Hs Hg Hlen) |].
  simpl. repeat split.
Qed.

Lemma ReplaceConfig_copies_witness :
  exists s',
    ReplaceConfig dstStack srcStack = Returned s' /\
    routeTable s' = [routeVia [10; 0; 0; 0] 1 1] /\ nics s' = nics hlStack /\
    nicIDGen s' = 6 /\ transportProtocols s' = ∅ /\
    networkProtocols s' = {[IPv4ProtocolNumber]} /\ rawFactory s' = None /\
    defaultForwardingEnabled s' = [] /\ handleLocal s' = false.
Proof.
  exact (ReplaceConfig_copies dstStack srcStack
           ltac:(unfold routes_sorted; repeat constructor)
           ltac:(vm_compute; discriminate) ltac:(vm_compute; reflexivity)).
Defined.

(** [ReplaceConfig(st)] panics when [st] has a NIC and [s]'s NIC id
    generator is already at the int32 maximum. *)
Theorem ReplaceConfig_overflow (s st : Stack) :
  nicIDGen s = 2 ^ 31 - 1 -> nics st <> ∅ -> ReplaceConfig s st = Panicked.
Proof.
  intros Hg Hne. unfold ReplaceConfig.
  destruct (map_to_list (nics st)) as [|[i x] l] eqn:E.
  - apply map_to_list_empty_iff in E. contradiction.
  - simpl. unfold NextNICID. simpl. rewrite Hg. reflexivity.
Qed.

Lemma ReplaceConfig_overflow_witness :
  ReplaceConfig (set_nicIDGen dstStack (2 ^ 31 - 1)) srcStack = Panicked.
Proof.
  exact (ReplaceConfig_overflow (set_nicIDGen dstStack (2 ^ 31 - 1)) srcStack eq_refl
           ltac:(vm_compute; discriminate)).
Defined.

(** [SetNICName] on a present NIC succeeds, after which
    [FindNICNameFromID] reports the new name for that id and the old
    names for every other id. *)
Theorem SetNICName_FindNICNameFromID (s : Stack) (id : Z) (name : string) (n : nic) :
  nics s !! id = Some n ->
  snd (SetNICName s id name) = None /\
  FindNICNameFromID (fst (SetNICName s id name)) id = name /\
  (forall k, k <> id -> FindNICNameFromID (fst (SetNICName s id name)) k
                        = FindNICNameFromID s k).
Proof.
  intros Hn. unfold SetNICName, FindNICNameFromID. rewrite Hn. simpl.
  split; [reflexivity |]. rewrite lookup_insert_eq. split; [reflexivity |].
  intros k Hk. rewrite lookup_insert_ne by congruence. reflexivity.
Qed.

Lemma SetNICName_FindNICNameFromID_witness :
  FindNICNameFromID (fst (SetNICName hlStack 1 "wan")) 1 = "wan"%string /\
  FindNICNameFromID (fst (SetNICName hlStack 1 "wan")) 2 = "lo"%string.
Proof.
  destruct (SetNICName_FindNICNameFromID hlStack 1 "wan" eth1 eq_refl) as (_ & H1 & H2).
  split; [exact H1 | rewrite (H2 2 ltac:(lia)); reflexivity].
Defined.

(** Once a NIC is renamed to a non-empty [name], [CreateNICWithOptions]
    with that name fails with [DuplicateNICID] and changes nothing,
    whatever the id asked for. *)
Theorem SetNICName_blocks_CreateNIC (ops : NicOps) (s : Stack) (id : Z) (name : string)
    (n : nic) (id2 ep : Z) (opts : NICOptions) :
  nics s !! id = Some n -> name <> ""%string -> Name opts = name -> id2 <> 0 ->
  CreateNICWithOptions ops (fst (SetNICName s id name)) id2 ep opts
    = Returned (fst (SetNICName s id name), [], Some ErrDuplicateNICID).
Proof.
  intros Hn Hname Hopts Hid2. unfold CreateNICWithOptions.
  rewrite bool_decide_false by exact Hid2.
  case_bool_decide; [reflexivity |].
  rewrite bool_decide_true by congruence. simpl.
  assert (Hex : existsb (fun m => bool_decide (nic_name m = Name opts))
                  (nicList (fst (SetNICName s id name))) = true).
  { apply existsb_exists.
    exists (mkNic (nic_id n) name (nic_enabled n) (nic_addrs n) (nic_primary n) (nic_linkEP n)).
    split.
    - apply list_elem_of_In. apply (StackClaims.lookup_in_nicList _ id).
      unfold SetNICName. rewrite Hn. apply lookup_insert_eq.
    - apply bool_decide_eq_true. simpl. congruence. }
  by rewrite Hex.
Qed.

Lemma SetNICName_blocks_CreateNIC_witness :
  CreateNICWithOptions specNicOps (fst (SetNICName hlStack 1 "wan")) 9 109
      (mkNICOptions "wan" false)
    = Returned (fst (SetNICName hlStack 1 "wan"), [], Some ErrDuplicateNICID).
Proof.
  exact (SetNICName_blocks_CreateNIC specNicOps hlStack 1 "wan" eth1 9 109
           (mkNICOptions "wan" false) eq_refl ltac:(discriminate) eq_refl ltac:(lia)).
Defined.

End StackExtras.

Module StackExtras2.
Import RouteTable RouteTableFacts StackOps SpecNic StackMore MoreSamples StackExtras.

Lemma setForwardingAll_after_success (ops : NicOps) (p : Z) (en : bool) (l : list (Z * nic))
    (m : gmap Z nic) (e : Error) :
  setForwardingAll ops p en l m true <> Returned (inr e).
Proof.
  revert m. induction l as [|[i x] l IH]; simpl; intros m; [discriminate |].
  destruct (setForwarding ops x p en); [apply IH | discriminate].
Qed.

Lemma setForwardingAll_dom (ops : NicOps) (p : Z) (en : bool) (l : list (Z * nic))
    (m m' : gmap Z nic) (b : bool) :
  (forall i x, (i, x) ∈ l -> is_Some (m !! i)) ->
  setForwardingAll ops p en l m b = Returned (inl m') ->
  forall k, is_Some (m' !! k) <-> is_Some (m !! k).
Proof.
  revert m b. induction l as [|[i x] l IH]; simpl; intros m b Hl H k.
  - by injection H as <-.
  - destruct (setForwarding ops x p en) as [n'|err].
    + assert (Hl' : forall j y, (j, y) ∈ l -> is_Some (<[i := n']> m !! j)).
      { intros j y Hj. rewrite lookup_insert_is_Some'. right. apply (Hl j y). by right. }
      rewrite (IH _ _ Hl' H k), lookup_insert_is_Some'.
      split; [intros [<- | Hk]; [apply (Hl i x); left | exact Hk] | by right].
    + by destruct b.
Qed.

(** [SetForwardingDefaultAndAllNICs] returns an error exactly when the
    first NIC it visits refuses the setting, and then nothing has
    changed: no NIC and not the forwarding defaults. *)
Theorem SetForwardingDefaultAndAllNICs_error (ops : NicOps) (s s' : Stack) (p : Z)
    (en : bool) (e : Error) :
  SetForwardingDefaultAndAllNICs ops s p en = Returned (s', Some e) <->
  s' = s /\ exists id n rest, map_to_list (nics s) = (id, n) :: rest /\
                              setForwarding ops n p en = inr e.
Proof.
  unfold SetForwardingDefaultAndAllNICs. split.
  - destruct (map_to_list (nics s)) as [|[id n] rest]; simpl; [discriminate |].
    destruct (setForwarding ops n p en) as [n'|err] eqn:Hf.
    + destruct (setForwardingAll ops p en rest (<[id := n']> (nics s)) true)
        as [[m | err] |] eqn:Hl; try discriminate.
      exfalso. exact (setForwardingAll_after_success _ _ _ _ _ _ Hl).
    + intros H. injection H as <- <-. split; [reflexivity |]. eauto.
  - intros (-> & id & n & rest & Hl & Hf). rewrite Hl. simpl. by rewrite Hf.
Qed.

Lemma setForwardingAll_pre_panics (ops : NicOps) (p : Z) (en : bool)
    (pre rest : list (Z * nic)) (i : Z) (n : nic) (e : Error) :
  (forall j x, (j, x) ∈ pre -> exists x', setForwarding ops x p en = inl x') ->
  setForwarding ops n p en = inr e ->
  forall m, setForwardingAll ops p en (pre ++ (i, n) :: rest) m true = Panicked.
Proof.
  intros Hpre Hn. induction pre as [|[j x] pre IH]; simpl; intros m.
  - by rewrite Hn.
  - destruct (Hpre j x ltac:(left)) as [x' Hx]. rewrite Hx. apply IH.
    intros j' y Hj. apply (Hpre j' y). by right.
Qed.

(** A NIC refusing the setting after one or more NICs visited before it
    all accepted it makes [SetForwardingDefaultAndAllNICs] panic. *)
Theorem SetForwardingDefaultAndAllNICs_partial_panics (ops : NicOps) (s : Stack) (p : Z)
    (en : bool) (pre rest : list (Z * nic)) (i : Z) (n : nic) (e : Error) :
  map_to_list (nics s) = pre ++ (i, n) :: rest -> pre <> [] ->
  (forall j x, (j, x) ∈ pre -> exists x', setForwarding ops x p en = inl x') ->
  setForwarding ops n p en = inr e ->
  SetForwardingDefaultAndAllNICs ops s p en = Panicked.
Proof.
  intros Hl Hne Hpre Hn. unfold SetForwardingDefaultAndAllNICs. rewrite Hl.
  destruct pre as [|[j x] pre]; [contradiction |]. simpl.
  destruct (Hpre j x ltac:(left)) as [x' Hx]. rewrite Hx.
  rewrite (setForwardingAll_pre_panics ops p en pre rest i n e); [reflexivity | | exact Hn].
  intros j' y Hj. apply (Hpre j' y). by right.
Qed.

Lemma SetForwardingDefaultAndAllNICs_partial_panics_witness :
  SetForwardingDefaultAndAllNICs partialForwardingOps hlStack IPv4ProtocolNumber true
    = Panicked.
Proof.
  apply (SetForwardingDefaultAndAllNICs_partial_panics partialForwardingOps hlStack
           IPv4ProtocolNumber true [(2, lo2)] [] 1 eth1 ErrNotSupported).
  - vm_compute. reflexivity.
  - discriminate.
  - intros j x Hj. apply list_elem_of_singleton in Hj. injection Hj as -> ->.
    exists lo2. reflexivity.
  - reflexivity.
Defined.

(** After a successful [SetForwardingDefaultAndAllNICs(p, enable)], [p]
    is among the forwarding defaults for new NICs exactly when [enable]
    holds, every other protocol keeps its default, the same NIC ids are
    present and the routes are untouched. *)
Theorem SetForwardingDefaultAndAllNICs_success (ops : NicOps) (s s' : Stack) (p : Z)
    (en : bool) :
  SetForwardingDefaultAndAllNICs ops s p en = Returned (s', None) ->
  (p ∈ defaultForwardingEnabled s' <-> en = true) /\
  (forall q, q <> p -> q ∈ defaultForwardingEnabled s' <-> q ∈ defaultForwardingEnabled s) /\
  (forall k, is_Some (nics s' !! k) <-> is_Some (nics s !! k)) /\
  routeTable s' = routeTable s.
Proof.
  unfold SetForwardingDefaultAndAllNICs.
  destruct (setForwardingAll ops p en (map_to_list (nics s)) (nics s) false)
    as [[m | err] |] eqn:Hl; try discriminate.
  intros H. injection H as <-. simpl. split; [| split; [| split]].
  - destruct en.
    + case_bool_decide; [tauto |].
      rewrite elem_of_app, list_elem_of_singleton. tauto.
    + rewrite list_elem_of_In, filter_In, bool_decide_true by reflexivity.
      split; [intros [_ ?]; discriminate | discriminate].
  - intros q Hq. destruct en.
    + case_bool_decide; [tauto |].
      rewrite elem_of_app, list_elem_of_singleton. tauto.
    + rewrite !list_elem_of_In, filter_In, bool_decide_false by exact Hq. tauto.
  - refine (setForwardingAll_dom _ _ _ _ _ _ _ _ Hl).
    intros i x Hx. apply elem_of_map_to_list in Hx. eauto.
  - reflexivity.
Qed.

Lemma SetForwardingDefaultAndAllNICs_success_witness :
  match SetForwardingDefaultAndAllNICs specNicOps hlStack IPv4ProtocolNumber true with
  | Returned (s', None) =>
      IPv4ProtocolNumber ∈ defaultForwardingEnabled s' /\
      (forall k, is_Some (nics s' !! k) <-> is_Some (nics hlStack !! k))
  | _ => False
  end.
Proof.
  destruct (SetForwardingDefaultAndAllNICs specNicOps hlStack IPv4ProtocolNumber true)
    as [[s' [e |]] |] eqn:E.
  - vm_compute in E. discriminate.
  - destruct (SetForwardingDefaultAndAllNICs_success specNicOps hlStack s'
                IPv4ProtocolNumber true E) as (H1 & _ & H3 & _).
    split; [by apply H1 | exact H3].
  - vm_compute in E. discriminate.
Defined.

Lemma not_nic_remove_true (ev : list Event) (d : bool) (id : Z) (i : Z) :
  EvNicRemove i true ∉ [EvNicRemove id false] ++ (if d then [EvDeferred id] else []).
Proof.
  intros Hin. apply elem_of_app in Hin as [Hin | Hin].
  - apply list_elem_of_singleton in Hin. discriminate.
  - destruct d; [apply list_elem_of_singleton in Hin; discriminate |].
    by apply elem_of_nil in Hin.
Qed.

(** [SetNICStack] never closes the NIC's link endpoint: whatever the
    stacks and the outcome, the NIC is only ever removed with
    [closeLinkEndpoint = false]. *)
Theorem SetNICStack_keeps_link_endpoint (ops : NicOps) (heap : gmap Z Stack) (sp id peer : Z)
    (h : gmap Z Stack) (ev : list Event) (r : Z * option Error) :
  SetNICStack ops heap sp id peer = Returned (h, ev, r) ->
  forall i, EvNicRemove i true ∉ ev.
Proof.
  intros H i. unfold SetNICStack in H.
  destruct (heap !! sp) as [s |]; [| discriminate].
  destruct (nics s !! id) as [n |].
  2: { injection H as _ <- _. apply not_elem_of_nil. }
  case_bool_decide.
  { injection H as _ <- _. apply not_elem_of_nil. }
  destruct (nicRemove ops n false) as [d e]. cbv zeta in H. destruct e as [e |].
  { injection H as _ <- _. apply (not_nic_remove_true [] d id i). }
  destruct (<[sp := _]> heap !! peer) as [p |]; [| discriminate].
  destruct (NextNICID p) as [[p1 id'] |]; [| discriminate].
  destruct (CreateNICWithOptions ops p1 id' _ _) as [[[p2 ev2] err2] |] eqn:EC;
    [| discriminate].
  injection H as _ <- _. intros Hin.
  apply (elem_of_app [EvNicRemove id false ] _) in Hin as [Hin | Hin].
  { apply list_elem_of_singleton in Hin. discriminate. }
  apply elem_of_app in Hin as [Hin | Hin].
  - apply (not_nic_remove_true [] d id i). apply elem_of_app. by right.
  - exact (CreateNICWithOptions_no_remove _ _ _ _ _ _ _ _ EC i true Hin).
Qed.

Lemma SetNICStack_keeps_link_endpoint_witness :
  match SetNICStack specNicOps twoStacks 7 1 8 with
  | Returned (_, ev, _) => forall i, EvNicRemove i true ∉ ev
  | Panicked => False
  end.
Proof.
  destruct (SetNICStack specNicOps twoStacks 7 1 8) as [[[h ev] r] |] eqn:E.
  - exact (SetNICStack_keeps_link_endpoint specNicOps twoStacks 7 1 8 h ev r E).
  - vm_compute in E. discriminate.
Defined.

(** [SetNICStack] to another stack, once the NIC's removal succeeded,
    leaves the source stack without the NIC and without the routes
    through it (the other routes in order), returns the next id of the
    peer's generator, and, when it reports no error, the peer has a NIC
    under that id and its generator stands at it. *)
Theorem SetNICStack_moves (ops : NicOps) (heap : gmap Z Stack) (sp id peer : Z)
    (s p : Stack) (n : nic) (h : gmap Z Stack) (ev : list Event) (id' : Z)
    (err : option Error) :
  heap !! sp = Some s -> nics s !! id = Some n -> sp <> peer -> heap !! peer = Some p ->
  0 <= nicIDGen p < 2 ^ 31 - 1 -> snd (nicRemove ops n false) = None ->
  SetNICStack ops heap sp id peer = Returned (h, ev, (id', err)) ->
  h !! sp = Some (set_routeTable (set_nics s (delete id (nics s)))
                    (List.filter (fun r => negb (bool_decide (NIC r = id))) (routeTable s))) /\
  id' = nicIDGen p + 1 /\
  (err = None -> exists p2, h !! peer = Some p2 /\ HasNIC p2 id' = true /\ nicIDGen p2 = id').
Proof.
  intros Hs Hn Hne Hp Hg Hrem H. unfold SetNICStack in H.
  rewrite Hs, Hn, bool_decide_false in H by exact Hne.
  destruct (nicRemove ops n false) as [d e]. simpl in Hrem. subst e. cbv zeta in H.
  rewrite lookup_insert_ne, Hp in H by exact Hne.
  unfold NextNICID in H. rewrite wrap32_id, bool_decide_false in H by lia.
  destruct (CreateNICWithOptions ops _ _ _ _) as [[[p2 ev2] err2] |] eqn:EC;
    [| discriminate].
  injection H as <- _ <- <-. split; [| split].
  - rewrite lookup_insert_ne by congruence. rewrite lookup_insert_eq. f_equal.
    unfold RemoveRoutes. rewrite removeRoutesLocked_filter. reflexivity.
  - reflexivity.
  - intros ->. destruct (CreateNICWithOptions_ok _ _ _ _ _ _ _ EC) as [Hin Hgen].
    exists p2. split; [apply lookup_insert_eq |]. split.
    + unfold HasNIC. by apply bool_decide_true.
    + exact Hgen.
Qed.

Lemma SetNICStack_moves_witness :
  match SetNICStack specNicOps twoStacks 7 1 8 with
  | Returned (h, _, (id', err)) =>
      h !! 7 = Some (set_routeTable (set_nics srcStack (delete 1 (nics srcStack))) []) /\
      id' = 5 /\ err = None /\
      exists p2, h !! 8 = Some p2 /\ HasNIC p2 5 = true /\ nicIDGen p2 = 5
  | Panicked => False
  end.
Proof.
  destruct (SetNICStack specNicOps twoStacks 7 1 8) as [[[h ev] [id' err]] |] eqn:E.
  - assert (Herr : err = None) by (vm_compute in E; congruence).
    destruct (SetNICStack_moves specNicOps twoStacks 7 1 8 srcStack dstStack eth1 h ev id' err
                eq_refl eq_refl ltac:(lia) eq_refl ltac:(unfold dstStack; simpl; lia)
                eq_refl E) as (H1 & H2 & H3).
    assert (Hid : id' = 5) by (rewrite H2; reflexivity). subst id'.
    rewrite H1. split; [reflexivity |]. split; [reflexivity |].
    split; [exact Herr | exact (H3 Herr)].
  - vm_compute in E. discriminate.
Defined.

End StackExtras2.

Module AddrNetProtoExtras.
Import AddrNetProto.

Lemma Unspecified4 (a b c d : Z) :
  [a; b; c; d] <> IPv4Any -> Unspecified [a; b; c; d] = false.
Proof.
  intros Hne. apply not_true_is_false. intros Hu. apply Hne. unfold Unspecified in Hu.
  assert (Hz : forall x, In x [a; b; c; d] -> x = 0).
  { intros x Hx. apply (bool_decide_eq_true _), (proj1 (forallb_forall _ _) Hu x Hx). }
  rewrite (Hz a), (Hz b), (Hz c), (Hz d) by (simpl; tauto). reflexivity.
Qed.

(** On success [AddrNetProtoLocked] answers either the endpoint's own
    network protocol or IPv4 for an IPv6 endpoint that is not v6-only,
    and changes only the address of [addr] (its NIC and port are kept). *)
Theorem AddrNetProtoLocked_protocol (t : TransportEndpointInfo) (addr a' : FullAddress)
    (v6only bind : bool) (np : Z) :
  AddrNetProtoLocked t addr v6only bind = Ok (a', np) ->
  (np = teNetProto t \/
   (np = IPv4ProtocolNumber /\ teNetProto t = IPv6ProtocolNumber /\ v6only = false)) /\
  faNIC a' = faNIC addr /\ faPort a' = faPort addr.
Proof.
  intros H. unfold AddrNetProtoLocked in H.
  match type of H with context [match ?e with (_, _) => _ end] => destruct e as [np0 a0] end.
  repeat match type of H with
  | context [if ?c then _ else _] => let E := fresh "E" in destruct c eqn:E
  end; try discriminate; injection H as <- <-;
  repeat match goal with
  | E : bool_decide _ = true |- _ => apply bool_decide_eq_true in E
  | E : (_ && _) = true |- _ => apply andb_prop in E as [? ?]
  end;
  (split; [| split; reflexivity]); tauto.
Qed.

Lemma AddrNetProtoLocked_protocol_witness :
  AddrNetProtoLocked (mkTransportEndpointInfo IPv6ProtocolNumber [])
    (mkFullAddress 1 [0; 0; 0; 0; 0; 0; 0; 0; 0; 0; 255; 255; 10; 0; 0; 1] 80) false false
    = Ok (mkFullAddress 1 [10; 0; 0; 1] 80, IPv4ProtocolNumber) /\
  faNIC (mkFullAddress 1 [10; 0; 0; 1] 80) = 1.
Proof.
  assert (H : AddrNetProtoLocked (mkTransportEndpointInfo IPv6ProtocolNumber [])
      (mkFullAddress 1 [0; 0; 0; 0; 0; 0; 0; 0; 0; 0; 255; 255; 10; 0; 0; 1] 80) false false
    = Ok (mkFullAddress 1 [10; 0; 0; 1] 80, IPv4ProtocolNumber)) by reflexivity.
  split; [exact H |].
  exact (proj1 (proj2 (AddrNetProtoLocked_protocol _ _ _ false false _ H))).
Defined.

(** An IPv4-mapped IPv6 address [::ffff:a.b.c.d] other than
    [::ffff:0.0.0.0], given to an IPv6 endpoint that is not v6-only and
    not bound to an IPv6 address, is unwrapped to [a.b.c.d] with the
    IPv4 protocol, for a bind as for a connect. *)
Theorem AddrNetProtoLocked_unwraps_v4mapped (t : TransportEndpointInfo) (addr : FullAddress)
    (bind : bool) (a b c d : Z) :
  teNetProto t = IPv6ProtocolNumber -> BitLen (teLocalAddress t) <> 128 ->
  [a; b; c; d] <> IPv4Any ->
  faAddr addr = [0; 0; 0; 0; 0; 0; 0; 0; 0; 0; 255; 255; a; b; c; d] ->
  AddrNetProtoLocked t addr false bind = Ok (set_faAddr addr [a; b; c; d], IPv4ProtocolNumber).
Proof.
  intros Hp Hl Hany Ha. pose proof (Unspecified4 a b c d Hany) as Hu.
  unfold Unspecified in Hu. simpl in Hu.
  unfold AddrNetProtoLocked. rewrite Ha. simpl.
  rewrite (bool_decide_false ([a; b; c; d] = IPv4Any)) by exact Hany.
  rewrite andb_false_r, (bool_decide_false (BitLen (teLocalAddress t) = 128)) by exact Hl.
  simpl. rewrite Hu, andb_false_r, Hp. reflexivity.
Qed.

Lemma AddrNetProtoLocked_unwraps_v4mapped_witness :
  AddrNetProtoLocked (mkTransportEndpointInfo IPv6ProtocolNumber [])
    (mkFullAddress 0 [0; 0; 0; 0; 0; 0; 0; 0; 0; 0; 255; 255; 192; 168; 0; 1] 53) false true
    = Ok (mkFullAddress 0 [192; 168; 0; 1] 53, IPv4ProtocolNumber).
Proof.
  exact (AddrNetProtoLocked_unwraps_v4mapped (mkTransportEndpointInfo IPv6ProtocolNumber [])
           (mkFullAddress 0 [0; 0; 0; 0; 0; 0; 0; 0; 0; 0; 255; 255; 192; 168; 0; 1] 53) true
           192 168 0 1 eq_refl ltac:(discriminate) ltac:(discriminate) eq_refl).
Defined.

(** A v6-only IPv6 endpoint refuses an IPv4-mapped address [::ffff:a.b.c.d],
    with an error that depends on its local address: [HostUnreachable]
    when it has none; when it is bound to an IPv6 address,
    [NetworkUnreachable] (the local-address check comes first), except
    for [::ffff:0.0.0.0], which unwraps to the empty address, passes that
    check and is refused with [HostUnreachable]. *)
Theorem AddrNetProtoLocked_v6only_v4mapped (t : TransportEndpointInfo) (addr : FullAddress)
    (bind : bool) (a b c d : Z) :
  teNetProto t = IPv6ProtocolNumber ->
  faAddr addr = [0; 0; 0; 0; 0; 0; 0; 0; 0; 0; 255; 255; a; b; c; d] ->
  (teLocalAddress t = [] -> AddrNetProtoLocked t addr true bind = Fail ErrHostUnreachable) /\
  (BitLen (teLocalAddress t) = 128 ->
   AddrNetProtoLocked t addr true bind
   = if bool_decide ([a; b; c; d] = IPv4Any) then Fail ErrHostUnreachable
     else Fail ErrNetworkUnreachable).
Proof.
  intros Hp Ha. unfold AddrNetProtoLocked. rewrite Ha. simpl. split.
  - intros Hl. rewrite Hl, Hp. simpl.
    destruct (bool_decide ([a; b; c; d] = IPv4Any)); simpl;
      [destruct bind | destruct bind; [| destruct (Unspecified [a; b; c; d])]]; reflexivity.
  - intros Hl. rewrite Hl.
    destruct (bool_decide ([a; b; c; d] = IPv4Any)); simpl; [| reflexivity].
    rewrite Hp. destruct bind; simpl; [reflexivity |].
    destruct (Unspecified (teLocalAddress t)); reflexivity.
Qed.

Lemma AddrNetProtoLocked_v6only_v4mapped_witness :
  AddrNetProtoLocked (mkTransportEndpointInfo IPv6ProtocolNumber [])
    (mkFullAddress 0 [0; 0; 0; 0; 0; 0; 0; 0; 0; 0; 255; 255; 10; 0; 0; 1] 80) true false
    = Fail ErrHostUnreachable /\
  AddrNetProtoLocked (mkTransportEndpointInfo IPv6ProtocolNumber IPv6Loopback)
    (mkFullAddress 0 [0; 0; 0; 0; 0; 0; 0; 0; 0; 0; 255; 255; 10; 0; 0; 1] 80) true false
    = Fail ErrNetworkUnreachable /\
  AddrNetProtoLocked (mkTransportEndpointInfo IPv6ProtocolNumber IPv6Loopback)
    (mkFullAddress 0 [0; 0; 0; 0; 0; 0; 0; 0; 0; 0; 255; 255; 0; 0; 0; 0] 80) true false
    = Fail ErrHostUnreachable.
Proof.
  split; [| split].
  - exact (proj1 (AddrNetProtoLocked_v6only_v4mapped
                    (mkTransportEndpointInfo IPv6ProtocolNumber [])
                    (mkFullAddress 0 [0; 0; 0; 0; 0; 0; 0; 0; 0; 0; 255; 255; 10; 0; 0; 1] 80)
                    false 10 0 0 1 eq_refl eq_refl) eq_refl).
  - exact (proj2 (AddrNetProtoLocked_v6only_v4mapped
                    (mkTransportEndpointInfo IPv6ProtocolNumber IPv6Loopback)
                    (mkFullAddress 0 [0; 0; 0; 0; 0; 0; 0; 0; 0; 0; 255; 255; 10; 0; 0; 1] 80)
                    false 10 0 0 1 eq_refl eq_refl) eq_refl).
  - exact (proj2 (AddrNetProtoLocked_v6only_v4mapped
                    (mkTransportEndpointInfo IPv6ProtocolNumber IPv6Loopback)
                    (mkFullAddress 0 [0; 0; 0; 0; 0; 0; 0; 0; 0; 0; 255; 255; 0; 0; 0; 0] 80)
                    false 0 0 0 0 eq_refl eq_refl) eq_refl).
Defined.

(** Connecting ([bind = false]) to an empty address goes to the
    endpoint's local address, or, when that is unspecified too, to the
    loopback address of the endpoint's protocol; the protocol is the
    endpoint's own. *)
Theorem AddrNetProtoLocked_unset_destination (t : TransportEndpointInfo) (addr : FullAddress)
    (v6only : bool) :
  faAddr addr = [] ->
  AddrNetProtoLocked t addr v6only false
  = Ok (set_faAddr addr
          (if Unspecified (teLocalAddress t) then
             if bool_decide (teNetProto t = IPv4ProtocolNumber) then IPv4Loopback
             else if bool_decide (teNetProto t = IPv6ProtocolNumber) then IPv6Loopback
             else []
           else teLocalAddress t),
        teNetProto t).
Proof.
  intros Ha. unfold AddrNetProtoLocked. rewrite Ha. simpl.
  rewrite !andb_false_r. simpl. rewrite bool_decide_true by reflexivity. reflexivity.
Qed.

Lemma AddrNetProtoLocked_unset_destination_witness :
  AddrNetProtoLocked (mkTransportEndpointInfo IPv4ProtocolNumber []) (mkFullAddress 0 [] 7)
    false false = Ok (mkFullAddress 0 IPv4Loopback 7, IPv4ProtocolNumber) /\
  AddrNetProtoLocked (mkTransportEndpointInfo IPv4ProtocolNumber [10; 0; 0; 1])
    (mkFullAddress 0 [] 7) false false = Ok (mkFullAddress 0 [10; 0; 0; 1] 7, IPv4ProtocolNumber).
Proof.
  split.
  - exact (AddrNetProtoLocked_unset_destination (mkTransportEndpointInfo IPv4ProtocolNumber [])
             (mkFullAddress 0 [] 7) false eq_refl).
  - exact (AddrNetProtoLocked_unset_destination
             (mkTransportEndpointInfo IPv4ProtocolNumber [10; 0; 0; 1])
             (mkFullAddress 0 [] 7) false eq_refl).
Defined.

(** An endpoint bound to an IPv4 address refuses an IPv6 address that is
    not IPv4-mapped ([InvalidEndpointState]), and one bound to an IPv6
    address refuses an IPv4 address ([NetworkUnreachable]). *)
Theorem AddrNetProtoLocked_family_mismatch (t : TransportEndpointInfo) (addr : FullAddress)
    (v6only bind : bool) :
  (BitLen (teLocalAddress t) = 32 -> BitLen (faAddr addr) = 128 ->
   IsV4MappedAddress (faAddr addr) = false ->
   AddrNetProtoLocked t addr v6only bind = Fail ErrInvalidEndpointState) /\
  (BitLen (teLocalAddress t) = 128 -> BitLen (faAddr addr) = 32 ->
   AddrNetProtoLocked t addr v6only bind = Fail ErrNetworkUnreachable).
Proof.
  unfold AddrNetProtoLocked. split.
  - intros Hl Ha Hm. rewrite (bool_decide_false (BitLen (faAddr addr) = 32)) by lia.
    rewrite (bool_decide_true (BitLen (faAddr addr) = 128)) by exact Ha.
    rewrite Hm, Hl, Ha. reflexivity.
  - intros Hl Ha. rewrite (bool_decide_true (BitLen (faAddr addr) = 32)) by exact Ha.
    rewrite Hl, Ha. reflexivity.
Qed.

Lemma AddrNetProtoLocked_family_mismatch_witness :
  AddrNetProtoLocked (mkTransportEndpointInfo IPv4ProtocolNumber [10; 0; 0; 1])
    (mkFullAddress 0 IPv6Loopback 7) false false = Fail ErrInvalidEndpointState /\
  AddrNetProtoLocked (mkTransportEndpointInfo IPv6ProtocolNumber IPv6Loopback)
    (mkFullAddress 0 [10; 0; 0; 1] 7) false false = Fail ErrNetworkUnreachable.
Proof.
  split.
  - exact (proj1 (AddrNetProtoLocked_family_mismatch
                    (mkTransportEndpointInfo IPv4ProtocolNumber [10; 0; 0; 1])
                    (mkFullAddress 0 IPv6Loopback 7) false false) eq_refl eq_refl eq_refl).
  - exact (proj2 (AddrNetProtoLocked_family_mismatch
                    (mkTransportEndpointInfo IPv6ProtocolNumber IPv6Loopback)
                    (mkFullAddress 0 [10; 0; 0; 1] 7) false false) eq_refl eq_refl).
Defined.

End AddrNetProtoExtras.
